(** * Soundness-error estimates for a FRI-based proof system

    A shallow embedding of the two analysis notebooks
    [risc0-security-analysis.ipynb] (provable and conjectured list-decoding
    regimes) and [risc0-security-analysis-UDR.ipynb] (unique-decoding regime).

    The notebooks are straight-line Python over unbounded integers and
    binary64 floats.  Integers are [Z]; floats are Rocq's primitive binary64
    floats, whose [+ - * / sqrt] round to nearest-even exactly as the
    hardware operations CPython calls.  Exceptions are an explicit error
    monad.  Two library functions have no bit-exact specification:
    [math.pow] is taken to return the correctly rounded power, and the
    logarithms that the notebooks print are read as real numbers.

    Each cell is one definition; [Provable.run], [Conjectured.run] and
    [UDR.run] execute the cells in the order of the files.  Module [Exact]
    reads the same formulas over the reals. *)

From Stdlib Require Import ZArith Floats Bool String List Lia.
From Stdlib Require Import Reals Lra.
From Bignums Require Import BigZ.
Import ListNotations.

Local Open Scope Z_scope.

(** ** Python exceptions and the error monad *)

(** An exception as a caller observes it: the class name and [str(e)]. *)
Record exn : Type := Exn { exn_class : string; exn_message : string }.

Definition AssertionError : exn := Exn "AssertionError" "".
Definition ZeroDivisionError (msg : string) : exn := Exn "ZeroDivisionError" msg.
Definition OverflowError (msg : string) : exn := Exn "OverflowError" msg.
Definition ValueError (msg : string) : exn := Exn "ValueError" msg.

(** [Unmodelled] marks a call of a C library function on arguments for which
    this development fixes no result ([math.pow] with an exponent that is
    neither an integer nor a positive half-integer).  No run of the notebooks
    reaches it: their exponents are Python ints and the literal [3/2]. *)
Inductive result (A : Type) : Type :=
| Ok (a : A)
| Raise (e : exn)
| Unmodelled.
Arguments Ok {A} a.
Arguments Raise {A} e.
Arguments Unmodelled {A}.

Definition bind {A B : Type} (r : result A) (f : A -> result B) : result B :=
  match r with
  | Ok a => f a
  | Raise e => Raise e
  | Unmodelled => Unmodelled
  end.

Declare Scope py_scope.
Delimit Scope py_scope with py.
Notation "x <- c ;; k" := (bind c (fun x => k))
  (at level 61, c at next level, right associativity) : py_scope.
Notation "c ;;; k" := (bind c (fun _ => k))
  (at level 61, right associativity) : py_scope.

(** ** Python numbers *)

(** A Python number is an [int] or a [float]; arithmetic coerces an [int]
    operand to [float] when the other operand is a [float]. *)
Inductive value : Type :=
| VInt (z : Z)
| VFloat (f : float).

Coercion VInt : Z >-> value.
Definition ret (v : value) : result value := Ok v.
Coercion ret : value >-> result.

(** Round the exact number [m * 2^e] to binary64, to nearest even. *)
Definition SF64round (m e : Z) : spec_float :=
  binary_normalize prec emax m e false.

(** Round the exact quotient [a / b] ([b <> 0]) to binary64, to nearest even. *)
Definition SF64ratio (a b : Z) : spec_float :=
  match a with
  | Z0 => S754_zero false
  | _ =>
    let '(q, e, l) := SFdiv_core_binary prec emax (Z.abs a) 0 (Z.abs b) 0 in
    binary_round_aux prec emax (xorb (a <? 0) (b <? 0)) q e l
  end.

Definition SF_is_infinity (x : spec_float) : bool :=
  match x with S754_infinity _ => true | _ => false end.

(** [float(z)]: correctly rounded, [OverflowError] beyond the finite range. *)
Definition float_of_int (z : Z) : result float :=
  let x := SF64round z 0 in
  if SF_is_infinity x
  then Raise (OverflowError "int too large to convert to float")
  else Ok (SF2Prim x).

Definition to_float (v : value) : result float :=
  match v with
  | VInt z => float_of_int z
  | VFloat f => Ok f
  end.

(** [a / b] on two ints: the correctly rounded quotient. *)
Definition int_truediv (a b : Z) : result value :=
  if b =? 0 then Raise (ZeroDivisionError "division by zero")
  else
    let x := SF64ratio a b in
    if SF_is_infinity x
    then Raise (OverflowError "integer division result too large for a float")
    else Ok (VFloat (SF2Prim x)).

Definition float_truediv (x y : float) : result value :=
  if PrimFloat.eqb y PrimFloat.zero
  then Raise (ZeroDivisionError "float division by zero")
  else Ok (VFloat (x / y)%float).

(** A binary operator with Python's coercion: [fi] on two ints, otherwise
    both operands become floats and [ff] applies. *)
Definition arith (fi : Z -> Z -> result value) (ff : float -> float -> result value)
    (a b : result value) : result value :=
  (x <- a ;; y <- b ;;
   match x, y with
   | VInt m, VInt n => fi m n
   | _, _ => u <- to_float x ;; v <- to_float y ;; ff u v
   end)%py.

Definition py_add : result value -> result value -> result value :=
  arith (fun m n => Ok (VInt (m + n))) (fun u v => Ok (VFloat (u + v)%float)).
Definition py_sub : result value -> result value -> result value :=
  arith (fun m n => Ok (VInt (m - n))) (fun u v => Ok (VFloat (u - v)%float)).
Definition py_mul : result value -> result value -> result value :=
  arith (fun m n => Ok (VInt (m * n))) (fun u v => Ok (VFloat (u * v)%float)).
Definition py_truediv : result value -> result value -> result value :=
  arith int_truediv float_truediv.

(** [a << n] on ints. *)
Definition py_lshift (a b : result value) : result value :=
  (x <- a ;; y <- b ;;
   match x, y with
   | VInt m, VInt n =>
     if n <? 0 then Raise (ValueError "negative shift count")
     else Ok (VInt (Z.shiftl m n))
   | _, _ => Raise (Exn "TypeError" "unsupported operand type(s) for <<")
   end)%py.

Notation "a +! b" := (py_add a b) (at level 50, left associativity) : py_scope.
Notation "a -! b" := (py_sub a b) (at level 50, left associativity) : py_scope.
Notation "a *! b" := (py_mul a b) (at level 40, left associativity) : py_scope.
Notation "a /! b" := (py_truediv a b) (at level 40, left associativity) : py_scope.
Notation "a <<! b" := (py_lshift a b) (at level 55, left associativity) : py_scope.

(** *** Comparisons *)

(** The exact order between an int and a float (Python compares them
    without rounding the int). *)
Definition SFcompare_int (z : Z) (x : spec_float) : option comparison :=
  match x with
  | S754_nan => None
  | S754_infinity s => Some (if s then Gt else Lt)
  | S754_zero _ => Some (z ?= 0)
  | S754_finite s m e =>
    let v := if s then Z.neg m else Z.pos m in
    Some (if 0 <=? e then z ?= v * 2 ^ e else z * 2 ^ (- e) ?= v)
  end.

Definition py_compare (x y : value) : option comparison :=
  match x, y with
  | VInt m, VInt n => Some (m ?= n)
  | VFloat u, VFloat v => SFcompare (Prim2SF u) (Prim2SF v)
  | VInt m, VFloat v => SFcompare_int m (Prim2SF v)
  | VFloat u, VInt n => option_map CompOpp (SFcompare_int n (Prim2SF u))
  end.

Definition py_lt (a b : result value) : result bool :=
  (x <- a ;; y <- b ;;
   Ok match x, y with
      | VFloat u, VFloat v => PrimFloat.ltb u v
      | _, _ => match py_compare x y with Some Lt => true | _ => false end
      end)%py.

Definition py_le (a b : result value) : result bool :=
  (x <- a ;; y <- b ;;
   Ok match x, y with
      | VFloat u, VFloat v => PrimFloat.leb u v
      | _, _ => match py_compare x y with Some (Lt | Eq) => true | _ => false end
      end)%py.

Notation "a <! b" := (py_lt a b) (at level 70, no associativity) : py_scope.
Notation "a <=! b" := (py_le a b) (at level 70, no associativity) : py_scope.

(** [assert c]: a bare assertion raises [AssertionError] with no message. *)
Definition py_assert (c : result bool) : result unit :=
  (b <- c ;; if b then Ok tt else Raise AssertionError)%py.

(** ** The [math] module *)

(** [math.sqrt]: the correctly rounded square root; a negative argument is a
    domain error. *)
Definition math_sqrt (a : result value) : result value :=
  (x <- a ;; f <- to_float x ;;
   if PrimFloat.ltb f PrimFloat.zero
   then Raise (ValueError "math domain error")
   else Ok (VFloat (PrimFloat.sqrt f)))%py.

(** The largest integer below a float, for [math.floor]. *)
Definition SFfloor (x : spec_float) : result Z :=
  match x with
  | S754_nan => Raise (ValueError "cannot convert float NaN to integer")
  | S754_infinity _ =>
    Raise (OverflowError "cannot convert float infinity to integer")
  | S754_zero _ => Ok 0
  | S754_finite s m e =>
    let v := if s then Z.neg m else Z.pos m in
    Ok (if 0 <=? e then v * 2 ^ e else v / 2 ^ (- e))
  end.

Definition math_floor (a : result value) : result value :=
  (x <- a ;;
   match x with
   | VInt z => Ok (VInt z)
   | VFloat f => n <- SFfloor (Prim2SF f) ;; Ok (VInt n)
   end)%py.

Definition math_ceil (a : result value) : result value :=
  (x <- a ;;
   match x with
   | VInt z => Ok (VInt z)
   | VFloat f => n <- SFfloor (SFopp (Prim2SF f)) ;; Ok (VInt (- n))
   end)%py.

(** Twice a float when that is an integer: [Some n] for the float [n/2]. *)
Definition twice_as_int (y : spec_float) : option Z :=
  match y with
  | S754_zero _ => Some 0
  | S754_finite s m e =>
    let v := if s then Z.neg m else Z.pos m in
    if 0 <=? e + 1 then Some (v * 2 ^ (e + 1))
    else if v mod 2 ^ (- (e + 1)) =? 0 then Some (v / 2 ^ (- (e + 1)))
    else None
  | _ => None
  end.

(** [x ** (n/2)] for a finite non-zero [x = (-1)^s * m * 2^e], as the
    correctly rounded value of the exact power (C's [pow] has no bit-exact
    specification; the results the notebooks depend on are either exactly
    representable or used to within a tolerance far above one unit in the
    last place). *)
Definition SFpow_finite (s : bool) (m : positive) (e : Z) (n : Z) : result spec_float :=
  if Z.even n then
    let j := n / 2 in
    let sz := s && Z.odd j in
    if 0 <=? j then
      Ok (SF64round ((if sz then Z.neg m else Z.pos m) ^ j) (e * j))
    else
      let d := Z.pos m ^ (- j) in
      let t := e * j in
      Ok (if 0 <=? t
          then SF64ratio ((if sz then -1 else 1) * 2 ^ t) d
          else SF64ratio (if sz then -1 else 1) (d * 2 ^ (- t)))
  else if s then Raise (ValueError "math domain error")
  else if 0 <? n then
    let '(q, e', l) := SFsqrt_core_binary prec emax (Z.pos m ^ n) (e * n) in
    Ok (binary_round_aux prec emax false q e' l)
  else Unmodelled.

(** [m * 2^e] written with an odd [m]. *)
Fixpoint odd_mantissa (m : positive) (e : Z) : positive * Z :=
  match m with
  | xO m' => odd_mantissa m' (e + 1)
  | _ => (m, e)
  end.

Definition SFpow (x : spec_float) (n : Z) : result spec_float :=
  let odd_int := Z.even n && Z.odd (n / 2) in
  match x with
  | S754_nan => Ok (if n =? 0 then SF64round 1 0 else S754_nan)
  | S754_zero s =>
    if n =? 0 then Ok (SF64round 1 0)
    else if 0 <? n then Ok (S754_zero (s && odd_int))
    else Raise (ValueError "math domain error")
  | S754_infinity s =>
    if n =? 0 then Ok (SF64round 1 0)
    else if 0 <? n then Ok (S754_infinity (s && odd_int))
    else Ok (S754_zero (s && odd_int))
  | S754_finite s m e =>
    let '(m', e') := odd_mantissa m e in
    (r <- SFpow_finite s m' e' n ;;
     if SF_is_infinity r then Raise (OverflowError "math range error")
     else Ok r)%py
  end.

(** [math.pow(x, y)]: both arguments become floats first. *)
Definition math_pow (a b : result value) : result value :=
  (x <- a ;; y <- b ;; u <- to_float x ;; v <- to_float y ;;
   match twice_as_int (Prim2SF v) with
   | Some n => r <- SFpow (Prim2SF u) n ;; Ok (VFloat (SF2Prim r))
   | None => Unmodelled
   end)%py.

(** [math.log(x, 2)] raises a domain error on a non-positive argument.  Its
    float result is not computed here: the reported logarithms are read as
    real numbers (see [log2R] below). *)
Definition math_log_defined (a : result value) : result unit :=
  (x <- a ;;
   match py_compare x (VInt 0) with
   | Some (Lt | Eq) => Raise (ValueError "math domain error")
   | _ => Ok tt
   end)%py.

(** ** The notebooks *)

Local Open Scope py_scope.

(** The protocol parameters set at the top of each notebook. *)
Record inputs : Type := Inputs {
  k : Z;   (* negative log of the rate *)
  h : Z;   (* log of the trace length *)
  e : Z;   (* field extension degree *)
  p : Z;   (* field characteristic *)
  C : Z;   (* number of control, data and accumulation columns *)
  s : Z    (* number of FRI queries *)
}.

(** The names bound by the constants cell. *)
Record constants : Type := Constants {
  rho : value;
  H : value;
  D : value;
  F : value;
  L : value
}.

Definition constants_cell (i : inputs) : result constants :=
  rho <- 1 /! (1 <<! k i) ;;
  H <- 1 <<! h i ;;
  D <- H /! rho ;;
  F <- math_pow (p i) (e i) ;;
  L <- C i +! 4 ;;
  Ok (Constants rho H D F L).

(** The names bound by the Johnson-parameter cell. *)
Record johnson : Type := Johnson {
  m : Z;
  alpha : value;
  theta : value
}.

(** The FRI error terms. *)
Record fri : Type := Fri {
  e_proximity_gap : value;
  e_FRI_constant : value;
  e_FRI_queries : value;
  e_FRI : value
}.

(** The function-field rate and the Johnson parameter [m_plus] of the list
    size. *)
Record johnson_plus : Type := JohnsonPlus {
  rho_plus : value;
  m_plus : value
}.

(** The remaining error terms and their total. *)
Record iop : Type := Iop {
  L_plus : value;
  e_ALI : value;
  e_DEEP : value;
  e_PLONK : value;
  e_PLOOKUP : value;
  e_IOP : value
}.

(** Everything a notebook has bound when its last cell returns. *)
Record report : Type := Report {
  r_constants : constants;
  r_johnson : johnson;
  r_fri : fri;
  r_plus : johnson_plus;
  r_iop : iop
}.

(** The folding error added to [e_FRI_constant] in both list-decoding
    regimes. *)
Definition folding_error (i : inputs) (c : constants) (m : Z) : result value :=
  (2 *! m +! 1) *! (D c +! 1) *! 16 *! math_floor ((h i +! 2) /! 4 -! 2)
    /! (math_sqrt (rho c) *! F c).

(** The three expressions of the cell that derives [m_plus]: the first
    assertion's condition, the closed form, and the second assertion's
    condition (read at any candidate [m_plus]). *)
Definition johnson_check (j : johnson) (rho_plus : value) : result bool :=
  theta j <! 1 -! math_sqrt rho_plus.

Definition m_plus_closed_form (j : johnson) (rho_plus : value) : result value :=
  math_ceil (1 /! (2 *! (alpha j /! math_sqrt rho_plus -! 1))).

Definition m_plus_bound (j : johnson) (rho_plus m_plus : value) : result bool :=
  theta j <=! 1 -! math_sqrt rho_plus *! (1 +! 1 /! (2 *! m_plus)).

(** The cell that checks [theta] against the Johnson bound of the extension
    code and derives [m_plus]; both notebooks contain it verbatim. *)
Definition m_plus_cell (c : constants) (j : johnson) : result johnson_plus :=
  rho_plus <- (H c +! 2) /! D c ;;
  py_assert (johnson_check j rho_plus) ;;;
  m_plus <- m_plus_closed_form j rho_plus ;;
  py_assert (m_plus_bound j rho_plus m_plus) ;;;
  Ok (JohnsonPlus rho_plus m_plus).

(** The last four error terms and the total, from a list size [L_plus]. *)
Definition iop_cell (i : inputs) (c : constants) (f : fri) (L_plus : value)
  : result iop :=
  e_ALI <- L_plus *! C i /! F c ;;
  e_DEEP <- L_plus *! (4 *! (H c +! 1) +! (H c -! 1)) /! (F c -! H c -! D c) ;;
  e_PLONK <- e i *! 5 *! H c /! F c ;;
  e_PLOOKUP <- e i *! 15 *! H c /! F c ;;
  e_IOP <- e_FRI f +! e_ALI +! e_DEEP +! e_PLONK +! e_PLOOKUP ;;
  math_log_defined e_IOP ;;;
  Ok (Iop L_plus e_ALI e_DEEP e_PLONK e_PLOOKUP e_IOP).

(** *** [risc0-security-analysis.ipynb], provable soundness *)
Module Provable.

Definition johnson_cell (m : Z) (c : constants) : result johnson :=
  alpha <- (1 +! 1 /! (2 *! m)) *! math_sqrt (rho c) ;;
  theta <- 1 -! alpha ;;
  Ok (Johnson m alpha theta).

Definition fri_cell (i : inputs) (c : constants) (j : johnson) : result fri :=
  e_proximity_gap <-
    math_pow (m j +! 1 /! 2) 7 /! (3 *! math_pow (rho c) (3 /! 2))
      *! math_pow (D c) 2 /! F c ;;
  e_FRI_constant <-
    (L c -! 1 /! 2) *! e_proximity_gap +! folding_error i c (m j) ;;
  e_FRI_queries <- math_pow (1 -! theta j) (s i) ;;
  e_FRI <- e_FRI_constant +! e_FRI_queries ;;
  Ok (Fri e_proximity_gap e_FRI_constant e_FRI_queries e_FRI).

Definition L_plus_cell (jp : johnson_plus) : result value :=
  (m_plus jp +! 1 /! 2) /! math_sqrt (rho_plus jp).

Definition run (i : inputs) (m : Z) : result report :=
  c <- constants_cell i ;;
  j <- johnson_cell m c ;;
  f <- fri_cell i c j ;;
  jp <- m_plus_cell c j ;;
  L_plus <- L_plus_cell jp ;;
  o <- iop_cell i c f L_plus ;;
  Ok (Report c j f jp o).

End Provable.

(** *** [risc0-security-analysis.ipynb], conjectured soundness

    These cells run after the provable ones and reuse their [m] and
    [rho_plus]; they rebind [theta], the FRI terms, [L_plus] and the
    remaining terms. *)
Module Conjectured.

Record conjecture : Type := Conjecture {
  c_1 : Z;
  c_2 : Z;
  C_rho : Z;
  epsilon : value
}.

Definition theta_cell (q : conjecture) (c : constants) (jp : johnson_plus)
  : result (value * value) :=
  theta <- 1 -! rho c -! epsilon q ;;
  py_assert (theta <! 1 -! rho_plus jp) ;;;
  epsilon_plus <- 1 -! rho_plus jp -! theta ;;
  Ok (theta, epsilon_plus).

Definition fri_cell (i : inputs) (q : conjecture) (c : constants) (m : Z)
    (theta : value) : result fri :=
  e_proximity_gap <-
    1 /! math_pow (epsilon q *! rho c) (c_1 q) *! L c
      *! math_pow (D c) (c_2 q) /! F c ;;
  e_FRI_constant <-
    (L c -! 1 /! 2) *! e_proximity_gap +! folding_error i c m ;;
  e_FRI_queries <- math_pow (1 -! theta) (s i) ;;
  e_FRI <- e_FRI_constant +! e_FRI_queries ;;
  Ok (Fri e_proximity_gap e_FRI_constant e_FRI_queries e_FRI).

Definition L_plus_cell (q : conjecture) (c : constants) (epsilon_plus : value)
  : result value :=
  math_ceil (math_pow (D c /! epsilon_plus) (C_rho q)).

Definition run (i : inputs) (m : Z) (q : conjecture) : result report :=
  r <- Provable.run i m ;;
  let c := r_constants r in
  let jp := r_plus r in
  te <- theta_cell q c jp ;;
  let '(theta, epsilon_plus) := te in
  f <- fri_cell i q c m theta ;;
  L_plus <- L_plus_cell q c epsilon_plus ;;
  o <- iop_cell i c f L_plus ;;
  Ok (Report c (Johnson m (alpha (r_johnson r)) theta) f jp o).

End Conjectured.

(** *** [risc0-security-analysis-UDR.ipynb], unique decoding *)
Module UDR.

Definition johnson_cell (m : Z) (c : constants) : result johnson :=
  alpha <- 1 -! (1 -! rho c) /! 2 ;;
  theta <- 1 -! alpha ;;
  Ok (Johnson m alpha theta).

Definition fri_cell (i : inputs) (c : constants) (j : johnson) : result fri :=
  e_proximity_gap <- D c /! F c ;;
  e_FRI_constant <- (L c +! 1) *! e_proximity_gap ;;
  e_FRI_queries <- math_pow (1 -! theta j) (s i) ;;
  e_FRI <- e_FRI_constant +! e_FRI_queries ;;
  Ok (Fri e_proximity_gap e_FRI_constant e_FRI_queries e_FRI).

Definition L_plus_cell : result value := 1.

Definition run (i : inputs) (m : Z) : result report :=
  c <- constants_cell i ;;
  j <- johnson_cell m c ;;
  f <- fri_cell i c j ;;
  jp <- m_plus_cell c j ;;
  L_plus <- L_plus_cell ;;
  o <- iop_cell i c f L_plus ;;
  Ok (Report c j f jp o).

(** The same notebook with the [m_plus] cell deleted: the error terms it
    would report. *)
Definition error_terms (i : inputs) (m : Z) : result (fri * iop) :=
  c <- constants_cell i ;;
  j <- johnson_cell m c ;;
  f <- fri_cell i c j ;;
  L_plus <- L_plus_cell ;;
  o <- iop_cell i c f L_plus ;;
  Ok (f, o).

End UDR.

(** The values written in the two files. *)
Definition baby_bear : Z := Z.shiftl 1 32 - Z.shiftl 1 27 + 1.
Definition file_inputs : inputs := Inputs 2 18 4 baby_bear (16 + 222 + 36) 50.
Definition file_m : Z := 16.
Definition file_conjecture : Conjectured.conjecture :=
  Conjectured.Conjecture 1 1 1 (VFloat 0x1.999999999999ap-5).
Definition file_inputs_UDR : inputs :=
  Inputs 2 20 4 baby_bear (16 + 222 + 36) 150.

(** The same inputs with another number of queries. *)
Definition with_queries (i : inputs) (s : Z) : inputs :=
  Inputs (k i) (h i) (e i) (p i) (C i) s.

(** ** Exact values and reported logarithms *)

Local Open Scope R_scope.

(** The real number a finite binary64 float denotes ([0] for the others). *)
Definition SF2R (x : spec_float) : R :=
  match x with
  | S754_finite s m e =>
    let v := if s then Z.neg m else Z.pos m in
    if (0 <=? e)%Z then IZR (v * 2 ^ e) else IZR v / IZR (2 ^ (- e))
  | _ => 0
  end.

Definition value_R (v : value) : R :=
  match v with
  | VInt z => IZR z
  | VFloat f => SF2R (Prim2SF f)
  end.

(** The base-2 logarithm the notebooks print next to each term
    ([math.log(x, 2)], [np.log2]), read as a real number. *)
Definition log2R (v : value) : R := ln (value_R v) / ln 2.

(** Bits of security: [-log2(e_IOP)]. *)
Definition bits (r : report) : R := - log2R (e_IOP (r_iop r)).

(** [x] is [c] to within [tol]. *)
Definition approx (x c tol : R) : Prop := Rabs (x - c) <= tol.

(** The position of the leading bit of [m^N], computed on machine words. *)
Definition log2_pow (m N : Z) : Z :=
  BigZ.to_Z (BigZ.log2 (BigZ.pow (BigZ.of_Z m) (BigZ.of_Z N))).

(** [A/N <= log2 (m * 2^e) < B/N], decided on integers: with [l] the position
    of the leading bit of [m^N], [A - e*N <= l < B - e*N]. *)
Definition log2_check (x : spec_float) (A B N : Z) : bool :=
  match x with
  | S754_finite false m e =>
    let l := log2_pow (Z.pos m) N in
    ((e <? 0) && (0 <? N) && (0 <=? A - e * N) && (A - e * N <=? l)
     && (l <? B - e * N))%Z%bool
  | _ => false
  end.

(** [0 < x < y] on the exact values of two floats. *)
Definition SF_pos_ltb (x y : spec_float) : bool :=
  match x, y with
  | S754_finite false m1 e1, S754_finite false m2 e2 =>
    let e := Z.min e1 e2 in
    (Z.pos m1 * 2 ^ (e1 - e) <? Z.pos m2 * 2 ^ (e2 - e))%Z
  | _, _ => false
  end.

Definition value_pos_ltb (x y : value) : bool :=
  match x, y with
  | VFloat f, VFloat g => SF_pos_ltb (Prim2SF f) (Prim2SF g)
  | _, _ => false
  end.

Definition log2_in (v : value) (A B N : Z) : bool :=
  match v with
  | VFloat f => log2_check (Prim2SF f) A B N
  | VInt _ => false
  end.

(** ** The formulas in exact arithmetic

    The same expressions read over the real numbers: what the notebooks
    would compute if no operation rounded. *)
Module Exact.

(** [alpha = (1 + 1 / (2 * m)) * math.sqrt(rho)] and [theta = 1 - alpha]. *)
Definition alpha (m : Z) (rho : R) : R := (1 + 1 / (2 * IZR m)) * sqrt rho.
Definition theta (alpha : R) : R := 1 - alpha.

(** [m_plus = math.ceil(1 / (2 * (alpha / math.sqrt(rho_plus) - 1)))]. *)
Definition m_plus (alpha rho_plus : R) : Z :=
  Zceil (1 / (2 * (alpha / sqrt rho_plus - 1))).

(** [theta <= 1 - math.sqrt(rho_plus) * (1 + 1 / (2 * m_plus))]; at
    [m_plus = 0] the division raises, so the condition cannot hold. *)
Definition m_plus_bound (theta rho_plus : R) (m_plus : Z) : Prop :=
  m_plus <> 0%Z /\ theta <= 1 - sqrt rho_plus * (1 + 1 / (2 * IZR m_plus)).

(** [e_FRI_queries = math.pow(1 - theta, s)]. *)
Definition e_FRI_queries (theta : R) (s : Z) : R := powerRZ (1 - theta) s.

(** [e_IOP = e_FRI + e_ALI + e_DEEP + e_PLONK + e_PLOOKUP] with
    [e_FRI = e_FRI_constant + e_FRI_queries]. *)
Definition e_IOP (e_FRI_constant e_FRI_queries e_ALI e_DEEP e_PLONK e_PLOOKUP : R)
  : R :=
  e_FRI_constant + e_FRI_queries + e_ALI + e_DEEP + e_PLONK + e_PLOOKUP.

(** Bits of security, [- math.log(e_IOP, 2)]. *)
Definition bits (e_IOP : R) : R := - (ln e_IOP / ln 2).

End Exact.

(** ** The remaining formulas in exact arithmetic *)

(** The expressions of the constants cell, of the provable FRI cell and of the
    folding error, read over the reals. *)
Module ExactCells.

(** [D = H / rho] and [rho_plus = (H + 2) / D]. *)
Definition D (H rho : R) : R := H / rho.
Definition rho_plus (H D : R) : R := (H + 2) / D.

(** [math.pow(m + 1/2, 7) / (3 * math.pow(rho, 3/2)) * math.pow(D, 2) / F]. *)
Definition e_proximity_gap (m : Z) (rho D F : R) : R :=
  (IZR m + 1 / 2) ^ 7 / (3 * Rpower rho (3 / 2)) * D ^ 2 / F.

(** [(2*m+1) * (D+1) * 16 * math.floor((h+2)/4 - 2) / (math.sqrt(rho) * F)]. *)
Definition folding_error (m h : Z) (rho D F : R) : R :=
  (2 * IZR m + 1) * (D + 1) * 16 * IZR (Zfloor ((IZR h + 2) / 4 - 2))
  / (sqrt rho * F).

(** [(L - 1/2) * e_proximity_gap + folding error]. *)
Definition e_FRI_constant (m h : Z) (rho D F L : R) : R :=
  (L - 1 / 2) * e_proximity_gap m rho D F + folding_error m h rho D F.

End ExactCells.

(** The Johnson cell of the unique-decoding notebook. *)
Module ExactUDR.

(** [alpha = 1 - (1 - rho) / 2] and [theta = 1 - alpha]. *)
Definition alpha (rho : R) : R := 1 - (1 - rho) / 2.
Definition theta (alpha : R) : R := 1 - alpha.

End ExactUDR.

(** ** Comparing runs *)

(** Two reports that differ at most in [e_FRI_queries], [e_FRI] and
    [e_IOP]. *)
Definition same_but_queries (r r' : report) : Prop :=
  r_constants r' = r_constants r /\
  r_johnson r' = r_johnson r /\
  r_plus r' = r_plus r /\
  e_proximity_gap (r_fri r') = e_proximity_gap (r_fri r) /\
  e_FRI_constant (r_fri r') = e_FRI_constant (r_fri r) /\
  L_plus (r_iop r') = L_plus (r_iop r) /\
  e_ALI (r_iop r') = e_ALI (r_iop r) /\
  e_DEEP (r_iop r') = e_DEEP (r_iop r) /\
  e_PLONK (r_iop r') = e_PLONK (r_iop r) /\
  e_PLOOKUP (r_iop r') = e_PLOOKUP (r_iop r).

(** [f] holds at each of the [n] integers from [lo] on. *)
Definition Z_range_all (f : Z -> bool) (lo : Z) (n : nat) : bool :=
  forallb (fun j => f (lo + Z.of_nat j)%Z) (seq 0 n).

(** The first run completed with a strictly smaller total than the second,
    that is with more bits. *)
Definition beats (a b : result report) : bool :=
  match a, b with
  | Ok r, Ok r' => value_pos_ltb (e_IOP (r_iop r)) (e_IOP (r_iop r'))
  | _, _ => false
  end.

(** Among the Johnson parameters [lo], ..., [lo + n - 1], [m0] gives the
    smallest total. *)
Definition optimal_among (run : Z -> result report) (m0 lo : Z) (n : nat)
  : bool :=
  let best := run m0 in
  Z_range_all (fun m => (m =? m0)%Z || beats best (run m)) lo n.

(** The factor [math.floor((h + 2) / 4 - 2)] of the folding error is the
    integer quotient [(h - 6) // 4]. *)
Definition floor_factor_ok (h : Z) : bool :=
  match math_floor ((h +! 2) /! 4 -! 2)%Z with
  | Ok (VInt z) => (z =? (h - 6) / 4)%Z
  | _ => false
  end.

(** [r] is the Boolean [b]. *)
Definition is_Ok_bool (b : bool) (r : result bool) : bool :=
  match r with
  | Ok b' => Bool.eqb b b'
  | _ => false
  end.

(** The [m_plus] cell after the Johnson cell [jc], at Johnson parameter [m]:
    it completes with an int [m_plus >= 1], and the bound evaluates to false
    at [m_plus - 1] unless [m_plus = 1]. *)
Definition m_plus_least_at (jc : Z -> constants -> result johnson)
    (c : constants) (m : Z) : bool :=
  match jc m c with
  | Ok j =>
    match m_plus_cell c j with
    | Ok jp =>
      match m_plus jp with
      | VInt z =>
        (1 <=? z)%Z
        && ((z =? 1)%Z
            || is_Ok_bool false (m_plus_bound j (rho_plus jp) (VInt (z - 1))))
      | VFloat _ => false
      end
    | _ => false
    end
  | _ => false
  end.

(** [m_plus_least_at] for each [k], [h] and [m] of a grid, the other inputs
    as in [other]. *)
Definition m_plus_least_on (jc : Z -> constants -> result johnson)
    (other : inputs) (k0 : Z) (nk : nat) (h0 : Z) (nh : nat) (m0 : Z) (nm : nat)
  : bool :=
  Z_range_all (fun k' => Z_range_all (fun h' =>
    match constants_cell (Inputs k' h' (e other) (p other) (C other) (s other)) with
    | Ok c => Z_range_all (m_plus_least_at jc c) m0 nm
    | _ => false
    end) h0 nh) k0 nk.

(** The first assertion of the unique-decoding notebook evaluates to the
    Boolean [2^(k+3) < 2^h * (2^k - 1)^2]. *)
Definition UDR_first_check_at (c : constants) (k h : Z) : bool :=
  match UDR.johnson_cell 16 c with
  | Ok j =>
    match ((H c +! 2) /! D c)%Z with
    | Ok rp =>
      is_Ok_bool (2 ^ (k + 3) <? 2 ^ h * (2 ^ k - 1) ^ 2)%Z (johnson_check j rp)
    | _ => false
    end
  | _ => false
  end.

Definition UDR_first_check_on (other : inputs) (k0 : Z) (nk : nat) (h0 : Z)
    (nh : nat) : bool :=
  Z_range_all (fun k' => Z_range_all (fun h' =>
    match constants_cell (Inputs k' h' (e other) (p other) (C other) (s other)) with
    | Ok c => UDR_first_check_at c k' h'
    | _ => false
    end) h0 nh) k0 nk.

(** The provable [m_plus] cell at Johnson parameter [m] completes with
    [m_plus > m], and the bound evaluates to false at [m]. *)
Definition m_plus_above_at (c : constants) (m : Z) : bool :=
  match Provable.johnson_cell m c with
  | Ok j =>
    match m_plus_cell c j with
    | Ok jp =>
      match m_plus jp with
      | VInt z =>
        (m <? z)%Z && is_Ok_bool false (m_plus_bound j (rho_plus jp) (VInt m))
      | VFloat _ => false
      end
    | _ => false
    end
  | _ => false
  end.

Definition m_plus_above_on (i : inputs) (m0 : Z) (n : nat) : bool :=
  match constants_cell i with
  | Ok c => Z_range_all (m_plus_above_at c) m0 n
  | _ => false
  end.

(** ** The query term and the total *)

(** The floats a C library's [pow] may return where the correctly rounded
    power is [q]: [q] itself or one of the two floats next to it. *)
Definition pow_candidates (q : value) : list value :=
  match q with
  | VFloat x => [VFloat (next_down x); q; VFloat (next_up x)]
  | VInt _ => [q]
  end.

(** The lines after [e_FRI_queries], from a given value [q] of it:
    [e_FRI = e_FRI_constant + e_FRI_queries] and
    [e_IOP = e_FRI + e_ALI + e_DEEP + e_PLONK + e_PLOOKUP]. *)
Definition total_from (r : report) (q : value) : result value :=
  e_FRI <- e_FRI_constant (r_fri r) +! q ;;
  e_FRI +! e_ALI (r_iop r) +! e_DEEP (r_iop r) +! e_PLONK (r_iop r)
    +! e_PLOOKUP (r_iop r).

(** Between two reports, whichever candidates [math.pow] returned for the
    two query terms, the second query term and the second total are positive
    and strictly smaller than the first. *)
Definition queries_step_decreases (r r' : report) : Prop :=
  forall x x' : value,
    In x (pow_candidates (e_FRI_queries (r_fri r))) ->
    In x' (pow_candidates (e_FRI_queries (r_fri r'))) ->
    0 < value_R x' < value_R x /\
    exists t t' : value,
      total_from r x = Ok t /\ total_from r' x' = Ok t' /\
      0 < value_R t' < value_R t.

Definition robust_step (a b : result report) : bool :=
  match a, b with
  | Ok r, Ok r' =>
    forallb (fun x => forallb (fun x' =>
      value_pos_ltb x' x
      && match total_from r x, total_from r' x' with
         | Ok t, Ok t' => value_pos_ltb t' t
         | _, _ => false
         end) (pow_candidates (e_FRI_queries (r_fri r'))))
      (pow_candidates (e_FRI_queries (r_fri r)))
  | _, _ => false
  end.

(** [step] holds between each element of [a :: l] and the next. *)
Fixpoint chain_all {A : Type} (step : A -> A -> bool) (a : A) (l : list A)
  : bool :=
  match l with
  | [] => true
  | b :: l' => step a b && chain_all step b l'
  end.

(** [robust_step] holds between the runs with [s] and [s + 1] queries for
    every [s] from [1] to [n]. *)
Definition robust_upto (run : inputs -> result report) (i : inputs) (n : nat)
  : bool :=
  chain_all robust_step (run (with_queries i 1))
    (map (fun j => run (with_queries i (Z.of_nat j))) (seq 2 n)).

(** Between two runs, the second has a strictly larger [e_FRI_constant] and
    a strictly smaller [e_FRI_queries]. *)
Definition tradeoff_step (a b : result report) : bool :=
  match a, b with
  | Ok r, Ok r' =>
    value_pos_ltb (e_FRI_constant (r_fri r)) (e_FRI_constant (r_fri r'))
    && value_pos_ltb (e_FRI_queries (r_fri r')) (e_FRI_queries (r_fri r))
  | _, _ => false
  end.

(** [tradeoff_step] holds between the runs with Johnson parameters [m] and
    [m + 1] for every [m] from [1] to [n]. *)
Definition tradeoff_upto (run : Z -> result report) (n : nat) : bool :=
  chain_all tradeoff_step (run 1%Z) (map (fun j => run (Z.of_nat j)) (seq 2 n)).

(** * Properties *)

(** ** Logarithms of binary64 values from integer comparisons *)

Lemma ln_2_pos : 0 < ln 2.
Proof. rewrite <- ln_1. apply ln_increasing; lra. Qed.

Lemma ln_IZR_pow (b z : Z) :
  (0 < b)%Z -> (0 <= z)%Z -> ln (IZR (b ^ z)) = IZR z * ln (IZR b).
Proof.
  intros Hb Hz.
  rewrite <- (Z2Nat.id z Hz) at 1.
  rewrite <- pow_IZR, ln_pow by (apply IZR_lt; exact Hb).
  rewrite INR_IZR_INZ, Z2Nat.id by exact Hz.
  reflexivity.
Qed.

Lemma ln_le_compat (x y : R) : 0 < x -> x <= y -> ln x <= ln y.
Proof.
  intros Hx [Hlt | ->]; [left; apply ln_increasing; assumption | right; reflexivity].
Qed.

Lemma log2_pow_spec (m N : Z) : log2_pow m N = Z.log2 (m ^ N).
Proof.
  unfold log2_pow.
  rewrite BigZ.spec_log2, BigZ.spec_pow, !BigZ.spec_of_Z. reflexivity.
Qed.

Lemma log2_check_sound (x : spec_float) (A B N : Z) :
  log2_check x A B N = true ->
  IZR A / IZR N <= ln (SF2R x) / ln 2 < IZR B / IZR N.
Proof.
  destruct x as [ | | | [] m e]; cbn [log2_check SF2R]; try discriminate.
  rewrite log2_pow_spec, !andb_true_iff.
  intros [[[[He HN] HA] Hlo] Hhi].
  apply Z.ltb_lt in He, HN, Hhi. apply Z.leb_le in HA, Hlo.
  assert (Hneg : (0 <=? e)%Z = false) by (apply Z.leb_gt; exact He).
  rewrite Hneg.
  pose proof ln_2_pos as Hln2.
  assert (HmN : (0 < Z.pos m ^ N)%Z) by (apply Z.pow_pos_nonneg; lia).
  destruct (Z.log2_spec _ HmN) as [Hl1 Hl2].
  set (l := Z.log2 (Z.pos m ^ N)) in *.
  assert (Hl0 : (0 <= l)%Z) by (apply Z.log2_nonneg).
  (* bounds on N * ln m *)
  assert (Hlow : IZR l * ln 2 <= IZR N * ln (IZR (Z.pos m))).
  { rewrite <- !ln_IZR_pow by lia.
    apply ln_le_compat; [apply IZR_lt, Z.pow_pos_nonneg; lia | apply IZR_le; exact Hl1]. }
  assert (Hupp : IZR N * ln (IZR (Z.pos m)) < IZR (l + 1) * ln 2).
  { rewrite <- !ln_IZR_pow by lia.
    replace (l + 1)%Z with (Z.succ l) by lia.
    apply ln_increasing; [apply IZR_lt; exact HmN | apply IZR_lt; exact Hl2]. }
  (* the logarithm of the float *)
  assert (Hpow : 0 < IZR (2 ^ (- e))) by (apply IZR_lt, Z.pow_pos_nonneg; lia).
  assert (Hm : 0 < IZR (Z.pos m)) by (apply IZR_lt; lia).
  assert (Hln : ln (IZR (Z.pos m) / IZR (2 ^ (- e)))
                = ln (IZR (Z.pos m)) + IZR e * ln 2).
  { unfold Rdiv.
    rewrite ln_mult by (try apply Rinv_0_lt_compat; assumption).
    rewrite ln_Rinv by assumption.
    rewrite ln_IZR_pow by lia.
    rewrite opp_IZR. ring. }
  rewrite Hln. clear Hln.
  set (u := ln (IZR (Z.pos m))) in *.
  assert (HNr : 0 < IZR N) by (apply IZR_lt; exact HN).
  assert (HAl : IZR A - IZR e * IZR N <= IZR l).
  { rewrite <- mult_IZR, <- minus_IZR. apply IZR_le; exact Hlo. }
  assert (HBl : IZR (l + 1) <= IZR B - IZR e * IZR N).
  { rewrite <- mult_IZR, <- minus_IZR. apply IZR_le; lia. }
  replace ((u + IZR e * ln 2) / ln 2) with (u / ln 2 + IZR e) by (field; lra).
  assert (Hu1 : IZR l <= IZR N * (u / ln 2)).
  { apply Rmult_le_reg_r with (ln 2); [exact Hln2 |].
    replace (IZR N * (u / ln 2) * ln 2) with (IZR N * u) by (field; lra). exact Hlow. }
  assert (Hu2 : IZR N * (u / ln 2) < IZR (l + 1)).
  { apply Rmult_lt_reg_r with (ln 2); [exact Hln2 |].
    replace (IZR N * (u / ln 2) * ln 2) with (IZR N * u) by (field; lra). exact Hupp. }
  set (w := u / ln 2) in *.
  split.
  - apply Rmult_le_reg_r with (IZR N); [exact HNr |].
    replace (IZR A / IZR N * IZR N) with (IZR A) by (field; lra).
    replace ((w + IZR e) * IZR N) with (IZR N * w + IZR e * IZR N) by ring. lra.
  - apply Rmult_lt_reg_r with (IZR N); [exact HNr |].
    replace (IZR B / IZR N * IZR N) with (IZR B) by (field; lra).
    replace ((w + IZR e) * IZR N) with (IZR N * w + IZR e * IZR N) by ring. lra.
Qed.

Lemma log2_in_sound (v : value) (A B N : Z) :
  log2_in v A B N = true ->
  IZR A / IZR N <= log2R v < IZR B / IZR N.
Proof.
  destruct v as [z | f]; simpl; [discriminate |].
  apply log2_check_sound.
Qed.

Lemma approx_log2 (v : value) (A B N : Z) (c tol : R) :
  log2_in v A B N = true ->
  c - tol <= IZR A / IZR N -> IZR B / IZR N <= c + tol ->
  approx (log2R v) c tol.
Proof.
  intros Hin HA HB. apply log2_in_sound in Hin.
  unfold approx. apply Rabs_le. lra.
Qed.

Lemma approx_bounds (x c tol : R) : approx x c tol -> c - tol <= x <= c + tol.
Proof.
  unfold approx, Rabs. destruct (Rcase_abs (x - c)); lra.
Qed.

Lemma approx_opp (x c tol : R) : approx x (- c) tol -> approx (- x) c tol.
Proof.
  unfold approx. intros Hx.
  replace (- x - c) with (- (x - - c)) by ring.
  rewrite Rabs_Ropp. exact Hx.
Qed.

(** Closes [approx (log2R v) c tol] for a computed [v] by the integer check
    with bounds [A/N] and [B/N]. *)
Ltac log2_by A B N :=
  apply (approx_log2 _ A B N); [vm_compute; reflexivity | lra | lra].

(** ** End-to-end scenarios *)

(** C1. Scenario A, provable list-decoding regime: with [k=2], [h=18], [e=4],
    [p = 2^32 - 2^27 + 1], [C=274] (so [L=278]), [s=50] and Johnson parameter
    [m=16], the notebook runs to completion, the total is [47.495] bits to
    within [0.01], and the base-2 logarithms of the six terms are [-49.975],
    [-47.780], [-114.589], [-102.366], [-105.495] and [-103.910] to within
    half a unit of the last printed digit. *)
Theorem scenario_A_provable :
  exists r : report,
    Provable.run (Inputs 2 18 4 (2 ^ 32 - 2 ^ 27 + 1) 274 50) 16 = Ok r /\
    L (r_constants r) = VInt 278 /\
    approx (bits r) 47.495 0.01 /\
    approx (log2R (e_FRI_constant (r_fri r))) (-49.975) 0.0005 /\
    approx (log2R (e_FRI_queries (r_fri r))) (-47.780) 0.0005 /\
    approx (log2R (e_ALI (r_iop r))) (-114.589) 0.0005 /\
    approx (log2R (e_DEEP (r_iop r))) (-102.366) 0.0005 /\
    approx (log2R (e_PLONK (r_iop r))) (-105.495) 0.0005 /\
    approx (log2R (e_PLOOKUP (r_iop r))) (-103.910) 0.0005.
Proof.
  eexists. split; [vm_compute; reflexivity |].
  split; [reflexivity |].
  split; [apply approx_opp; log2_by (-9501)%Z (-9497)%Z 200%Z |].
  split; [log2_by (-99951)%Z (-99949)%Z 2000%Z |].
  split; [log2_by (-95561)%Z (-95559)%Z 2000%Z |].
  split; [log2_by (-229179)%Z (-229177)%Z 2000%Z |].
  split; [log2_by (-204733)%Z (-204731)%Z 2000%Z |].
  split; [log2_by (-210991)%Z (-210989)%Z 2000%Z |].
  log2_by (-207821)%Z (-207819)%Z 2000%Z.
Qed.

(** C8. Scenario B, conjectured list-decoding regime: with the parameters of
    scenario A (the folding term reusing [m=16]), [epsilon = 0.05] and
    [c_1 = c_2 = C_rho = 1], the notebook runs to completion, the total is
    [82.779] bits, the logarithms of the first four terms are [-85.259],
    [-86.848], [-95.397] and [-83.173] (all to within half a unit of the last
    printed digit), and [e_PLONK] and [e_PLOOKUP] are the floats of
    scenario A. *)
Theorem scenario_B_conjectured :
  exists rA rB : report,
    Provable.run (Inputs 2 18 4 (2 ^ 32 - 2 ^ 27 + 1) 274 50) 16 = Ok rA /\
    Conjectured.run (Inputs 2 18 4 (2 ^ 32 - 2 ^ 27 + 1) 274 50) 16
      (Conjectured.Conjecture 1 1 1 (VFloat 0x1.999999999999ap-5)) = Ok rB /\
    approx (bits rB) 82.779 0.0005 /\
    approx (log2R (e_FRI_constant (r_fri rB))) (-85.259) 0.0005 /\
    approx (log2R (e_FRI_queries (r_fri rB))) (-86.848) 0.0005 /\
    approx (log2R (e_ALI (r_iop rB))) (-95.397) 0.0005 /\
    approx (log2R (e_DEEP (r_iop rB))) (-83.173) 0.0005 /\
    e_PLONK (r_iop rB) = e_PLONK (r_iop rA) /\
    e_PLOOKUP (r_iop rB) = e_PLOOKUP (r_iop rA).
Proof.
  do 2 eexists. split; [vm_compute; reflexivity |].
  split; [vm_compute; reflexivity |].
  split; [apply approx_opp; log2_by (-165559)%Z (-165557)%Z 2000%Z |].
  split; [log2_by (-170519)%Z (-170517)%Z 2000%Z |].
  split; [log2_by (-173697)%Z (-173695)%Z 2000%Z |].
  split; [log2_by (-190795)%Z (-190793)%Z 2000%Z |].
  split; [log2_by (-166347)%Z (-166345)%Z 2000%Z |].
  split; reflexivity.
Qed.

(** C4 (as stated, refuted). At the parameters written in the unique-decoding
    notebook ([h=20], [s=150]) the total is not [99.289] bits: it is off by
    more than one bit. *)
Lemma scenario_C_is_not_99_289 :
  exists r : report,
    UDR.run (Inputs 2 20 4 (2 ^ 32 - 2 ^ 27 + 1) 274 150) 16 = Ok r /\
    ~ approx (bits r) 99.289 1.
Proof.
  eexists. split; [vm_compute; reflexivity |].
  match goal with
  | |- ~ approx (bits ?r) _ _ => assert (Hb : approx (bits r) 97.506 0.0005)
  end.
  { apply approx_opp; log2_by (-195013)%Z (-195011)%Z 2000%Z. }
  intros Hc. apply approx_bounds in Hb, Hc. lra.
Qed.

(** C4 (amended). Scenario C, unique-decoding regime: with [k=2], [h=20],
    [e=4], [p = 2^32 - 2^27 + 1], [C=274] (so [L=278]) and [s=150], the
    notebook runs to completion and the total is [97.506] bits.  The total
    [99.289] and the six logarithms recorded in the notebook ([-99.693],
    [-101.711], [-119.719], [-107.495], [-105.495], [-103.910]) are what the
    same cells compute at [h=18].  All values are to within half a unit of
    the last printed digit. *)
Theorem scenario_C_unique_decoding :
  (exists r : report,
     UDR.run (Inputs 2 20 4 (2 ^ 32 - 2 ^ 27 + 1) 274 150) 16 = Ok r /\
     L (r_constants r) = VInt 278 /\
     approx (bits r) 97.506 0.0005) /\
  (exists r : report,
     UDR.run (Inputs 2 18 4 (2 ^ 32 - 2 ^ 27 + 1) 274 150) 16 = Ok r /\
     approx (bits r) 99.289 0.0005 /\
     approx (log2R (e_FRI_constant (r_fri r))) (-99.693) 0.0005 /\
     approx (log2R (e_FRI_queries (r_fri r))) (-101.711) 0.0005 /\
     approx (log2R (e_ALI (r_iop r))) (-119.719) 0.0005 /\
     approx (log2R (e_DEEP (r_iop r))) (-107.495) 0.0005 /\
     approx (log2R (e_PLONK (r_iop r))) (-105.495) 0.0005 /\
     approx (log2R (e_PLOOKUP (r_iop r))) (-103.910) 0.0005).
Proof.
  split.
  - eexists. split; [vm_compute; reflexivity |].
    split; [reflexivity |].
    apply approx_opp; log2_by (-195013)%Z (-195011)%Z 2000%Z.
  - eexists. split; [vm_compute; reflexivity |].
    split; [apply approx_opp; log2_by (-198579)%Z (-198577)%Z 2000%Z |].
    split; [log2_by (-199387)%Z (-199385)%Z 2000%Z |].
    split; [log2_by (-203423)%Z (-203421)%Z 2000%Z |].
    split; [log2_by (-239439)%Z (-239437)%Z 2000%Z |].
    split; [log2_by (-214991)%Z (-214989)%Z 2000%Z |].
    split; [log2_by (-210991)%Z (-210989)%Z 2000%Z |].
    log2_by (-207821)%Z (-207819)%Z 2000%Z.
Qed.

(** ** Reasoning about runs *)

Lemma bind_Ok {A B : Type} (r : result A) (f : A -> result B) (b : B) :
  bind r f = Ok b -> exists a, r = Ok a /\ f a = Ok b.
Proof.
  destruct r as [a | x | ]; simpl; intros Hb; try discriminate.
  exists a. split; [reflexivity | exact Hb].
Qed.

(** Splits a successful sequence of bindings into its successful steps. *)
Ltac inv_bind H :=
  repeat (apply bind_Ok in H;
          let a := fresh "v" in
          let Ha := fresh "E" in
          destruct H as (a & Ha & H)).

(** Rewrites with the result [H] of a step and continues with the rest of
    the sequence. *)
Ltac step H := rewrite H; cbn [bind].

Lemma math_pow_is_float (a b : result value) (v : value) :
  math_pow a b = Ok v -> exists f, v = VFloat f.
Proof.
  unfold math_pow. intros Hp. inv_bind Hp.
  destruct (twice_as_int (Prim2SF v3)); [| discriminate].
  inv_bind Hp. injection Hp as <-. eexists; reflexivity.
Qed.

Lemma constants_cell_Ok (i : inputs) (c : constants) :
  constants_cell i = Ok c ->
  (1 /! (1 <<! k i))%Z = Ok (rho c) /\
  (1 <<! h i)%Z = Ok (H c) /\
  (H c /! rho c)%Z = Ok (D c) /\
  math_pow (p i) (e i) = Ok (F c) /\
  (C i +! 4)%Z = Ok (L c).
Proof.
  unfold constants_cell. intros Hc. inv_bind Hc.
  injection Hc as <-. simpl. auto.
Qed.

Lemma Z_range_all_sound (f : Z -> bool) (lo : Z) (n : nat) :
  Z_range_all f lo n = true ->
  forall z : Z, (lo <= z < lo + Z.of_nat n)%Z -> f z = true.
Proof.
  unfold Z_range_all. intros Hall z Hz.
  rewrite forallb_forall in Hall.
  replace z with (lo + Z.of_nat (Z.to_nat (z - lo)))%Z by lia.
  apply Hall. apply in_seq. lia.
Qed.

Lemma math_ceil_is_int (a : result value) (v : value) :
  math_ceil a = Ok v -> exists z : Z, v = VInt z.
Proof.
  unfold math_ceil. intros Hc.
  apply bind_Ok in Hc. destruct Hc as ([z | f] & _ & Hc).
  - injection Hc as <-. eexists; reflexivity.
  - apply bind_Ok in Hc. destruct Hc as (n & _ & Hc).
    injection Hc as <-. eexists; reflexivity.
Qed.

Lemma is_Ok_bool_sound (b : bool) (r : result bool) :
  is_Ok_bool b r = true -> r = Ok b.
Proof.
  destruct r as [b' | x | ]; cbn [is_Ok_bool]; try discriminate.
  intros Hb. apply eqb_prop in Hb. rewrite Hb. reflexivity.
Qed.

Lemma chain_all_sound {A : Type} (step : A -> A -> bool) (f : nat -> A)
    (n a : nat) :
  chain_all step (f a) (map f (seq (S a) n)) = true ->
  forall j : nat, (a <= j < a + n)%nat -> step (f j) (f (S j)) = true.
Proof.
  revert a. induction n as [ | n IH]; intros a Hc j Hj; [lia |].
  cbn [seq map chain_all] in Hc.
  apply andb_true_iff in Hc. destruct Hc as [Hstep Hrest].
  destruct (Nat.eq_dec j a) as [-> | Hne]; [exact Hstep |].
  apply (IH (S a) Hrest). lia.
Qed.

(** ** Precision of the field size *)

Lemma digits2_pos_bound (m : positive) :
  (Z.pos m < 2 ^ Z.pos (digits2_pos m))%Z.
Proof.
  induction m as [m IH | m IH | ]; cbn [digits2_pos].
  - rewrite Pos2Z.inj_succ, Z.pow_succ_r by lia. lia.
  - rewrite Pos2Z.inj_succ, Z.pow_succ_r by lia. lia.
  - reflexivity.
Qed.

Lemma valid_mantissa_bound (s : bool) (m : positive) (e : Z) :
  SpecFloat.valid_binary prec emax (S754_finite s m e) = true -> (Z.pos m < 2 ^ 53)%Z.
Proof.
  unfold SpecFloat.valid_binary, bounded, canonical_mantissa, fexp.
  change prec with 53%Z.
  intros Hv. apply andb_true_iff in Hv. destruct Hv as [Hc _].
  apply Z.eqb_eq in Hc.
  pose proof (digits2_pos_bound m) as Hd.
  unfold fexp in Hc.
  assert (Hle : (Z.pos (digits2_pos m) <= 53)%Z) by lia.
  apply Z.lt_le_trans with (1 := Hd).
  apply Z.pow_le_mono_r; lia.
Qed.

(** An odd integer of more than 53 bits is not a binary64 value. *)
Lemma odd_wide_not_binary64 (z : Z) (f : float) :
  (2 ^ 53 <= z)%Z -> Z.odd z = true -> value_R (VFloat f) <> IZR z.
Proof.
  intros Hz Hodd. cbn [value_R].
  pose proof (Prim2SF_valid f) as Hv.
  destruct (Prim2SF f) as [ | | | s m e]; cbn [SF2R].
  1-3: intros Heq; apply eq_IZR in Heq; lia.
  apply valid_mantissa_bound in Hv.
  destruct (0 <=? e)%Z eqn:He.
  - apply Z.leb_le in He. intros Heq. apply eq_IZR in Heq.
    destruct s; [assert (0 <= 2 ^ e)%Z by (apply Z.pow_nonneg; lia); nia |].
    destruct (Z.eq_dec e 0) as [-> | Hne].
    + rewrite Z.pow_0_r in Heq. lia.
    + rewrite <- Heq in Hodd.
      rewrite Z.odd_mul, Z.odd_pow, andb_false_r in Hodd by lia. discriminate.
  - apply Z.leb_gt in He. intros Heq.
    assert (Hp : (0 < 2 ^ (- e))%Z) by (apply Z.pow_pos_nonneg; lia).
    assert (Hpr : 0 < IZR (2 ^ (- e))) by (apply IZR_lt; exact Hp).
    assert (Heq' : IZR (if s then Z.neg m else Z.pos m) = IZR (z * 2 ^ (- e))).
    { rewrite mult_IZR, <- Heq. field. lra. }
    apply eq_IZR in Heq'.
    destruct s; nia.
Qed.

(** C3 (as stated, refuted). For [p = 2^32 - 2^27 + 1] and [e = 4] the value
    of [F] that the later formulas use is not the integer [p^4]. *)
Lemma field_size_is_not_exact :
  exists c : constants,
    constants_cell (Inputs 2 18 4 (2 ^ 32 - 2 ^ 27 + 1) 274 50) = Ok c /\
    value_R (F c) <> IZR ((2 ^ 32 - 2 ^ 27 + 1) ^ 4).
Proof.
  eexists. split; [vm_compute; reflexivity |].
  intros Heq.
  change (value_R _) with (IZR (7932984991964928 * 2 ^ 75)) in Heq.
  apply eq_IZR in Heq. vm_compute in Heq. discriminate.
Qed.

(** [math.pow] sees its integer arguments only through their conversion to
    float. *)
Lemma math_pow_of_floats (a a' b b' : Z) :
  float_of_int a = float_of_int a' -> float_of_int b = float_of_int b' ->
  math_pow (VInt a) (VInt b) = math_pow (VInt a') (VInt b').
Proof.
  intros Ha Hb. unfold math_pow, ret. cbn [bind to_float].
  rewrite Ha, Hb. reflexivity.
Qed.

(** C3 (amended).  [F = math.pow(p, e)] is a binary64 float for every input,
    and it is determined by [float(p)] and [float(e)]: two inputs whose [p]
    and [e] convert to the same floats get the same [F].  So [p = 2^53 + 1]
    and [p = 2^53] give the same [F]; with [e = 2] it is [2^106], which is
    [p^2 - (2^54 + 1)]: a relative error above [2^-53].  No binary64 float
    equals [p^4] for [p = 2^32 - 2^27 + 1]; for this [p] and [e = 4], [F] is
    [7932984991964928 * 2^75], which is [p^4 - 103871021822316118017]: a
    relative error below [2^-53].  Both notebooks compute this same float. *)
Theorem field_size_is_binary64 :
  (forall (i : inputs) (c : constants),
     constants_cell i = Ok c -> exists f : float, F c = VFloat f) /\
  (forall (i i' : inputs) (c c' : constants),
     constants_cell i = Ok c -> constants_cell i' = Ok c' ->
     float_of_int (p i) = float_of_int (p i') ->
     float_of_int (e i) = float_of_int (e i') ->
     F c' = F c) /\
  (exists c c' : constants,
     constants_cell (Inputs 2 18 2 (2 ^ 53 + 1) 274 50) = Ok c /\
     constants_cell (Inputs 2 18 2 (2 ^ 53) 274 50) = Ok c' /\
     F c = F c' /\
     value_R (F c) = IZR (2 ^ 106) /\
     value_R (F c) = IZR ((2 ^ 53 + 1) ^ 2 - (2 ^ 54 + 1)) /\
     IZR ((2 ^ 53 + 1) ^ 2)
     < Rabs (value_R (F c) - IZR ((2 ^ 53 + 1) ^ 2)) * IZR (2 ^ 53)) /\
  (forall f : float, value_R (VFloat f) <> IZR ((2 ^ 32 - 2 ^ 27 + 1) ^ 4)) /\
  (exists c : constants,
     constants_cell (Inputs 2 18 4 (2 ^ 32 - 2 ^ 27 + 1) 274 50) = Ok c /\
     value_R (F c) = IZR (7932984991964928 * 2 ^ 75) /\
     value_R (F c) = IZR ((2 ^ 32 - 2 ^ 27 + 1) ^ 4 - 103871021822316118017) /\
     Rabs (value_R (F c) - IZR ((2 ^ 32 - 2 ^ 27 + 1) ^ 4)) * IZR (2 ^ 53)
       <= IZR ((2 ^ 32 - 2 ^ 27 + 1) ^ 4) /\
     exists c' : constants, constants_cell file_inputs_UDR = Ok c' /\ F c' = F c).
Proof.
  split.
  { intros i c Hc. apply constants_cell_Ok in Hc.
    destruct Hc as (_ & _ & _ & HF & _).
    apply math_pow_is_float in HF. exact HF. }
  split.
  { intros i i' c c' Hc Hc' Hp He.
    apply constants_cell_Ok in Hc, Hc'.
    destruct Hc as (_ & _ & _ & HF & _).
    destruct Hc' as (_ & _ & _ & HF' & _).
    rewrite (math_pow_of_floats _ _ _ _ Hp He) in HF.
    rewrite HF in HF'. injection HF' as HF'. symmetry. exact HF'. }
  split.
  { do 2 eexists.
    split; [vm_compute; reflexivity |].
    split; [vm_compute; reflexivity |].
    split; [reflexivity |].
    change (value_R _) with (IZR (4503599627370496 * 2 ^ 54)).
    split; [apply f_equal; vm_compute; reflexivity |].
    split; [apply f_equal; vm_compute; reflexivity |].
    rewrite <- minus_IZR, <- abs_IZR, <- mult_IZR.
    apply IZR_lt. vm_compute. reflexivity. }
  split; [intros f; apply odd_wide_not_binary64; vm_compute; congruence |].
  eexists. split; [vm_compute; reflexivity |].
  change (value_R _) with (IZR (7932984991964928 * 2 ^ 75)).
  split; [reflexivity |].
  split; [apply f_equal; vm_compute; reflexivity |].
  split.
  + rewrite <- minus_IZR, <- abs_IZR, <- mult_IZR.
    apply IZR_le. vm_compute. discriminate.
  + eexists. split; vm_compute; reflexivity.
Qed.

(** ** What a successful run determines *)

Lemma py_assert_Ok (c : result bool) (u : unit) :
  py_assert c = Ok u -> c = Ok true.
Proof.
  unfold py_assert. destruct c as [[] | x | ]; simpl; intros Hc;
    try discriminate; reflexivity.
Qed.

Lemma m_plus_cell_Ok (c : constants) (j : johnson) (jp : johnson_plus) :
  m_plus_cell c j = Ok jp ->
  ((H c +! 2) /! D c)%Z = Ok (rho_plus jp) /\
  johnson_check j (rho_plus jp) = Ok true /\
  m_plus_closed_form j (rho_plus jp) = Ok (m_plus jp) /\
  m_plus_bound j (rho_plus jp) (m_plus jp) = Ok true.
Proof.
  unfold m_plus_cell. intros Hc. inv_bind Hc.
  injection Hc as <-. simpl.
  repeat match goal with
         | Ha : py_assert _ = Ok _ |- _ => apply py_assert_Ok in Ha
         end.
  auto.
Qed.

Lemma iop_cell_Ok (i : inputs) (c : constants) (f : fri) (Lp : value) (o : iop) :
  iop_cell i c f Lp = Ok o ->
  L_plus o = Lp /\
  (Lp *! C i /! F c)%Z = Ok (e_ALI o) /\
  (Lp *! (4 *! (H c +! 1) +! (H c -! 1)) /! (F c -! H c -! D c))%Z
    = Ok (e_DEEP o) /\
  (e i *! 5 *! H c /! F c)%Z = Ok (e_PLONK o) /\
  (e i *! 15 *! H c /! F c)%Z = Ok (e_PLOOKUP o) /\
  (e_FRI f +! e_ALI o +! e_DEEP o +! e_PLONK o +! e_PLOOKUP o)%Z
    = Ok (e_IOP o).
Proof.
  unfold iop_cell. intros Hc. inv_bind Hc.
  injection Hc as <-. simpl. auto 10.
Qed.

Lemma Provable_run_Ok (i : inputs) (m : Z) (r : report) :
  Provable.run i m = Ok r ->
  constants_cell i = Ok (r_constants r) /\
  Provable.johnson_cell m (r_constants r) = Ok (r_johnson r) /\
  Provable.fri_cell i (r_constants r) (r_johnson r) = Ok (r_fri r) /\
  m_plus_cell (r_constants r) (r_johnson r) = Ok (r_plus r) /\
  Provable.L_plus_cell (r_plus r) = Ok (L_plus (r_iop r)) /\
  iop_cell i (r_constants r) (r_fri r) (L_plus (r_iop r)) = Ok (r_iop r).
Proof.
  unfold Provable.run. intros Hr. inv_bind Hr.
  injection Hr as <-. simpl.
  match goal with
  | Ho : iop_cell _ _ _ _ = Ok _ |- _ =>
    destruct (iop_cell_Ok _ _ _ _ _ Ho) as (-> & _)
  end.
  auto 10.
Qed.

Lemma UDR_run_Ok (i : inputs) (m : Z) (r : report) :
  UDR.run i m = Ok r ->
  constants_cell i = Ok (r_constants r) /\
  UDR.johnson_cell m (r_constants r) = Ok (r_johnson r) /\
  UDR.fri_cell i (r_constants r) (r_johnson r) = Ok (r_fri r) /\
  m_plus_cell (r_constants r) (r_johnson r) = Ok (r_plus r) /\
  L_plus (r_iop r) = VInt 1 /\
  iop_cell i (r_constants r) (r_fri r) (VInt 1) = Ok (r_iop r).
Proof.
  unfold UDR.run. intros Hr. inv_bind Hr.
  injection Hr as <-. simpl.
  match goal with
  | Hl : UDR.L_plus_cell = Ok _ |- _ => injection Hl as <-
  end.
  match goal with
  | Ho : iop_cell _ _ _ _ = Ok _ |- _ =>
    destruct (iop_cell_Ok _ _ _ _ _ Ho) as (-> & _)
  end.
  auto 10.
Qed.

Lemma Conjectured_run_Ok (i : inputs) (m : Z) (q : Conjectured.conjecture)
    (r : report) :
  Conjectured.run i m q = Ok r ->
  constants_cell i = Ok (r_constants r) /\
  exists f Lp, iop_cell i (r_constants r) f Lp = Ok (r_iop r).
Proof.
  unfold Conjectured.run. intros Hr. inv_bind Hr.
  match goal with
  | Hp : Provable.run _ _ = Ok _ |- _ => apply Provable_run_Ok in Hp; destruct Hp as (Hc & _)
  end.
  match goal with
  | x : (value * value)%type |- _ => destruct x
  end.
  inv_bind Hr. injection Hr as <-. simpl. eauto.
Qed.

Lemma Conjectured_run_inv (i : inputs) (m : Z) (q : Conjectured.conjecture)
    (r : report) :
  Conjectured.run i m q = Ok r ->
  exists (rp : report) (epsilon_plus : value),
    Provable.run i m = Ok rp /\
    r_constants r = r_constants rp /\
    r_plus r = r_plus rp /\
    r_johnson r = Johnson m (alpha (r_johnson rp)) (theta (r_johnson r)) /\
    Conjectured.theta_cell q (r_constants rp) (r_plus rp)
      = Ok (theta (r_johnson r), epsilon_plus) /\
    Conjectured.fri_cell i q (r_constants rp) m (theta (r_johnson r))
      = Ok (r_fri r) /\
    Conjectured.L_plus_cell q (r_constants rp) epsilon_plus
      = Ok (L_plus (r_iop r)) /\
    iop_cell i (r_constants rp) (r_fri r) (L_plus (r_iop r)) = Ok (r_iop r).
Proof.
  unfold Conjectured.run. intros Hr.
  apply bind_Ok in Hr. destruct Hr as (rp & Hp & Hr).
  apply bind_Ok in Hr. destruct Hr as ([t ep] & Ht & Hr).
  apply bind_Ok in Hr. destruct Hr as (f & Hf & Hr).
  apply bind_Ok in Hr. destruct Hr as (Lp & HL & Hr).
  apply bind_Ok in Hr. destruct Hr as (o & Ho & Hr).
  injection Hr as <-. cbn [r_constants r_plus r_johnson r_fri r_iop theta].
  destruct (iop_cell_Ok _ _ _ _ _ Ho) as (-> & _).
  exists rp, ep. auto 10.
Qed.

(** ** Constraint enforcement in the provable regime *)

(** C5 (as stated, refuted). At [m = 131073] (other values as in the file)
    the candidate has [theta >= 1 - sqrt(rho_plus)]; the run stops with a
    bare [AssertionError], whose message is empty: it is no
    [ConstraintViolation] and names neither a regime nor a margin. *)
Lemma violation_is_a_bare_AssertionError :
  Provable.run file_inputs 131073 = Raise (Exn "AssertionError" "") /\
  ~ (exists msg : string,
       Provable.run file_inputs 131073 = Raise (Exn "ConstraintViolation" msg)).
Proof.
  assert (Hrun : Provable.run file_inputs 131073 = Raise (Exn "AssertionError" ""))
    by (vm_compute; reflexivity).
  split; [exact Hrun |].
  intros [msg Hmsg]. rewrite Hrun in Hmsg. discriminate.
Qed.

(** C5 (amended). In the provable regime, whenever the cells before the check
    succeed and the condition [theta < 1 - sqrt(rho_plus)] evaluates to
    false, the run raises [AssertionError] and produces no report. *)
Theorem provable_violation_raises :
  forall (i : inputs) (m : Z) (c : constants) (j : johnson) (f : fri)
         (rp : value),
    constants_cell i = Ok c ->
    Provable.johnson_cell m c = Ok j ->
    Provable.fri_cell i c j = Ok f ->
    ((H c +! 2) /! D c)%Z = Ok rp ->
    johnson_check j rp = Ok false ->
    Provable.run i m = Raise AssertionError /\
    forall r : report, Provable.run i m <> Ok r.
Proof.
  intros i m c j f rp Hc Hj Hf Hrp Hchk.
  assert (Hrun : Provable.run i m = Raise AssertionError).
  { unfold Provable.run. step Hc. step Hj. step Hf.
    unfold m_plus_cell. step Hrp. unfold py_assert. step Hchk.
    reflexivity. }
  split; [exact Hrun |].
  intros r Hr. rewrite Hrun in Hr. discriminate.
Qed.

(** The theorem at the file's values with [m = 131073]. *)
Lemma provable_violation_raises_witness :
  Provable.run file_inputs 131073 = Raise AssertionError /\
  forall r : report, Provable.run file_inputs 131073 <> Ok r.
Proof.
  refine (provable_violation_raises file_inputs 131073 _ _ _ _ _ _ _ _ _).
  - vm_compute; reflexivity.
  - vm_compute; reflexivity.
  - vm_compute; reflexivity.
  - vm_compute; reflexivity.
  - vm_compute; reflexivity.
Defined.

(** ** The unique-decoding regime *)

(** C7. Whenever the unique-decoding notebook runs to completion, whatever
    the inputs, [L_plus] is the integer [1], [e_proximity_gap] is [D / F],
    and [e_FRI_constant] is exactly [(L + 1) * e_proximity_gap], with no
    folding term added. *)
Theorem UDR_list_size_and_FRI_constant :
  forall (i : inputs) (m : Z) (r : report),
    UDR.run i m = Ok r ->
    L_plus (r_iop r) = VInt 1 /\
    (D (r_constants r) /! F (r_constants r))%Z
      = Ok (e_proximity_gap (r_fri r)) /\
    ((L (r_constants r) +! 1) *! e_proximity_gap (r_fri r))%Z
      = Ok (e_FRI_constant (r_fri r)).
Proof.
  intros i m r Hr. apply UDR_run_Ok in Hr.
  destruct Hr as (_ & _ & Hf & _ & HL & _).
  split; [exact HL |].
  unfold UDR.fri_cell in Hf. inv_bind Hf. injection Hf as <-. simpl.
  auto.
Qed.

(** The theorem at the values of the unique-decoding file. *)
Lemma UDR_list_size_and_FRI_constant_witness :
  exists r : report,
    UDR.run file_inputs_UDR file_m = Ok r /\
    L_plus (r_iop r) = VInt 1 /\
    (D (r_constants r) /! F (r_constants r))%Z
      = Ok (e_proximity_gap (r_fri r)) /\
    ((L (r_constants r) +! 1) *! e_proximity_gap (r_fri r))%Z
      = Ok (e_FRI_constant (r_fri r)).
Proof.
  eexists. split; [vm_compute; reflexivity |].
  apply (UDR_list_size_and_FRI_constant file_inputs_UDR file_m).
  vm_compute; reflexivity.
Defined.

(** C10. The unique-decoding notebook keeps both assertions of the provable
    regime.  If the cells before them succeed and [theta < 1 - sqrt(rho_plus)]
    is false, or it is true and the bound at the computed [m_plus] is false,
    the run raises [AssertionError] (as it does at [k = 1], [h = 1]); so a
    run completes only if both conditions evaluated to true, with [m_plus]
    the closed form.  A run that completes reports exactly the terms of the
    notebook with the [m_plus] cell deleted, with [L_plus = 1].  At the
    file's values ([rho = 1/4], [theta = 3/8]) both conditions are true,
    [m_plus = 3], and the run completes. *)
Theorem UDR_keeps_the_Johnson_assertions :
  (forall (i : inputs) (m : Z) (c : constants) (j : johnson) (f : fri)
          (rp : value),
     constants_cell i = Ok c ->
     UDR.johnson_cell m c = Ok j ->
     UDR.fri_cell i c j = Ok f ->
     ((H c +! 2) /! D c)%Z = Ok rp ->
     johnson_check j rp = Ok false ->
     UDR.run i m = Raise AssertionError) /\
  (forall (i : inputs) (m : Z) (c : constants) (j : johnson) (f : fri)
          (rp mp : value),
     constants_cell i = Ok c ->
     UDR.johnson_cell m c = Ok j ->
     UDR.fri_cell i c j = Ok f ->
     ((H c +! 2) /! D c)%Z = Ok rp ->
     johnson_check j rp = Ok true ->
     m_plus_closed_form j rp = Ok mp ->
     m_plus_bound j rp mp = Ok false ->
     UDR.run i m = Raise AssertionError) /\
  UDR.run (Inputs 1 1 4 baby_bear 274 150) file_m = Raise AssertionError /\
  (forall (i : inputs) (m : Z) (r : report),
     UDR.run i m = Ok r ->
     johnson_check (r_johnson r) (rho_plus (r_plus r)) = Ok true /\
     m_plus_closed_form (r_johnson r) (rho_plus (r_plus r))
       = Ok (m_plus (r_plus r)) /\
     m_plus_bound (r_johnson r) (rho_plus (r_plus r)) (m_plus (r_plus r))
       = Ok true /\
     L_plus (r_iop r) = VInt 1 /\
     UDR.error_terms i m = Ok (r_fri r, r_iop r)) /\
  (exists r : report,
     UDR.run file_inputs_UDR file_m = Ok r /\
     rho (r_constants r) = VFloat 0.25 /\
     theta (r_johnson r) = VFloat 0.375 /\
     johnson_check (r_johnson r) (rho_plus (r_plus r)) = Ok true /\
     m_plus (r_plus r) = VInt 3 /\
     m_plus_bound (r_johnson r) (rho_plus (r_plus r)) (m_plus (r_plus r))
       = Ok true).
Proof.
  split; [| split; [| split; [| split]]].
  - intros i m c j f rp Hc Hj Hf Hrp Hchk.
    unfold UDR.run. step Hc. step Hj. step Hf.
    unfold m_plus_cell. step Hrp. unfold py_assert. step Hchk.
    reflexivity.
  - intros i m c j f rp mp Hc Hj Hf Hrp Hchk Hmp Hbound.
    unfold UDR.run. step Hc. step Hj. step Hf.
    unfold m_plus_cell. step Hrp. unfold py_assert. step Hchk.
    step Hmp. step Hbound. reflexivity.
  - vm_compute; reflexivity.
  - intros i m r Hr. apply UDR_run_Ok in Hr.
    destruct Hr as (Hc & Hj & Hf & Hjp & HL & Ho).
    apply m_plus_cell_Ok in Hjp. destruct Hjp as (_ & Hchk & Hmp & Hbound).
    split; [exact Hchk |]. split; [exact Hmp |]. split; [exact Hbound |].
    split; [exact HL |].
    unfold UDR.error_terms. step Hc. step Hj. step Hf.
    unfold UDR.L_plus_cell, ret. cbn [bind]. step Ho. reflexivity.
  - eexists. split; [vm_compute; reflexivity |].
    repeat split; vm_compute; reflexivity.
Qed.

(** The first part of the theorem at [k = 1], [h = 1]. *)
Lemma UDR_keeps_the_Johnson_assertions_witness :
  UDR.run (Inputs 1 1 4 baby_bear 274 150) file_m = Raise AssertionError.
Proof.
  refine (proj1 UDR_keeps_the_Johnson_assertions
            (Inputs 1 1 4 baby_bear 274 150) file_m _ _ _ _ _ _ _ _ _).
  - vm_compute; reflexivity.
  - vm_compute; reflexivity.
  - vm_compute; reflexivity.
  - vm_compute; reflexivity.
  - vm_compute; reflexivity.
Defined.

(** ** Regime independence of the PLONK and PLOOKUP terms *)

Lemma Ok_inj {A : Type} (a b : A) : Ok a = Ok b -> a = b.
Proof. intros Hab. injection Hab as ->. reflexivity. Qed.

(** [H] is determined by [h], and [F] by [p] and [e]. *)
Lemma constants_cell_H_F (i i' : inputs) (c c' : constants) :
  constants_cell i = Ok c -> constants_cell i' = Ok c' ->
  h i = h i' -> e i = e i' -> p i = p i' ->
  H c = H c' /\ F c = F c'.
Proof.
  intros Hc Hc' Hh He Hp.
  apply constants_cell_Ok in Hc, Hc'.
  destruct Hc as (_ & HH & _ & HF & _).
  destruct Hc' as (_ & HH' & _ & HF' & _).
  rewrite Hh in HH. rewrite He, Hp in HF.
  rewrite HH in HH'. rewrite HF in HF'.
  split; apply Ok_inj; assumption.
Qed.

(** C9. In each regime a completed run has [e_PLONK = e * 5 * H / F] and
    [e_PLOOKUP = e * 15 * H / F], expressions in [e], [H] and [F] alone; so
    runs of the three regimes on inputs with the same [h], [e] and [p] report
    the same [e_PLONK] and the same [e_PLOOKUP], whatever their other inputs
    ([k], [C], [s], [m], the conjecture's constants). *)
Theorem PLONK_PLOOKUP_regime_independent :
  forall (i1 i2 i3 : inputs) (m1 m2 m3 : Z) (q : Conjectured.conjecture)
         (r1 r2 r3 : report),
    Provable.run i1 m1 = Ok r1 ->
    Conjectured.run i2 m2 q = Ok r2 ->
    UDR.run i3 m3 = Ok r3 ->
    h i1 = h i2 -> h i2 = h i3 ->
    e i1 = e i2 -> e i2 = e i3 ->
    p i1 = p i2 -> p i2 = p i3 ->
    (e i1 *! 5 *! H (r_constants r1) /! F (r_constants r1))%Z
      = Ok (e_PLONK (r_iop r1)) /\
    (e i1 *! 15 *! H (r_constants r1) /! F (r_constants r1))%Z
      = Ok (e_PLOOKUP (r_iop r1)) /\
    e_PLONK (r_iop r1) = e_PLONK (r_iop r2) /\
    e_PLONK (r_iop r2) = e_PLONK (r_iop r3) /\
    e_PLOOKUP (r_iop r1) = e_PLOOKUP (r_iop r2) /\
    e_PLOOKUP (r_iop r2) = e_PLOOKUP (r_iop r3).
Proof.
  intros i1 i2 i3 m1 m2 m3 q r1 r2 r3 H1 H2 H3 Hh12 Hh23 He12 He23 Hp12 Hp23.
  apply Provable_run_Ok in H1. destruct H1 as (Hc1 & _ & _ & _ & _ & Ho1).
  apply Conjectured_run_Ok in H2. destruct H2 as (Hc2 & f2 & Lp2 & Ho2).
  apply UDR_run_Ok in H3. destruct H3 as (Hc3 & _ & _ & _ & _ & Ho3).
  destruct (constants_cell_H_F _ _ _ _ Hc1 Hc2 Hh12 He12 Hp12) as (HH12 & HF12).
  destruct (constants_cell_H_F _ _ _ _ Hc2 Hc3 Hh23 He23 Hp23) as (HH23 & HF23).
  apply iop_cell_Ok in Ho1, Ho2, Ho3.
  destruct Ho1 as (_ & _ & _ & Hk1 & Hl1 & _).
  destruct Ho2 as (_ & _ & _ & Hk2 & Hl2 & _).
  destruct Ho3 as (_ & _ & _ & Hk3 & Hl3 & _).
  split; [exact Hk1 |]. split; [exact Hl1 |].
  rewrite <- He23, <- HH23, <- HF23 in Hk3, Hl3.
  rewrite <- He12, <- HH12, <- HF12 in Hk2, Hl2.
  rewrite <- He12, <- HH12, <- HF12 in Hk3, Hl3.
  rewrite Hk1 in Hk2, Hk3. rewrite Hl1 in Hl2, Hl3.
  apply Ok_inj in Hk2, Hk3, Hl2, Hl3.
  repeat split; congruence.
Qed.

(** The theorem at the file's values, the unique-decoding run taken with
    the same [h = 18]. *)
Lemma PLONK_PLOOKUP_regime_independent_witness :
  exists r1 r2 r3 : report,
    Provable.run file_inputs file_m = Ok r1 /\
    Conjectured.run file_inputs file_m file_conjecture = Ok r2 /\
    UDR.run (Inputs 2 18 4 baby_bear 274 150) file_m = Ok r3 /\
    e_PLONK (r_iop r1) = e_PLONK (r_iop r2) /\
    e_PLONK (r_iop r2) = e_PLONK (r_iop r3) /\
    e_PLOOKUP (r_iop r1) = e_PLOOKUP (r_iop r2) /\
    e_PLOOKUP (r_iop r2) = e_PLOOKUP (r_iop r3).
Proof.
  do 3 eexists.
  split; [vm_compute; reflexivity |].
  split; [vm_compute; reflexivity |].
  split; [vm_compute; reflexivity |].
  refine (proj2 (proj2
    (PLONK_PLOOKUP_regime_independent
       file_inputs file_inputs (Inputs 2 18 4 baby_bear 274 150)
       file_m file_m file_m file_conjecture _ _ _ _ _ _ _ _ _ _ _ _))).
  - vm_compute; reflexivity.
  - vm_compute; reflexivity.
  - vm_compute; reflexivity.
  - reflexivity.
  - reflexivity.
  - reflexivity.
  - reflexivity.
  - reflexivity.
  - reflexivity.
Defined.

(** ** Minimality of [m_plus] *)

Section MPlusExact.

Variables (a r : R).
Hypothesis r_pos : 0 < r.
Hypothesis a_gt_r : r < a.

Lemma gap_pos : 0 < a / r - 1.
Proof.
  assert (Hr : 1 < a / r).
  { apply Rmult_lt_reg_r with r; [exact r_pos |].
    replace (a / r * r) with a by (field; lra). lra. }
  lra.
Qed.

(** For a positive integer [j], the bound at [j] says [1 / (2 * d) <= j]. *)
Lemma bound_iff_ge (j : Z) :
  (0 < j)%Z ->
  (1 - a <= 1 - r * (1 + 1 / (2 * IZR j)) <-> 1 / (2 * (a / r - 1)) <= IZR j).
Proof.
  intros Hj. pose proof gap_pos as Hd.
  set (d := a / r - 1) in *.
  assert (Hjr : 0 < IZR j) by (apply IZR_lt; exact Hj).
  assert (Ha : a = r * (d + 1)) by (unfold d; field; lra).
  assert (Hinv_j : 1 / (2 * IZR j) = / (2 * IZR j)) by (field; lra).
  assert (Hinv_d : 1 / (2 * d) = / (2 * d)) by (field; lra).
  rewrite Hinv_j, Hinv_d.
  split.
  - intros Hb.
    assert (Hle : / (2 * IZR j) <= d).
    { apply Rmult_le_reg_l with r; [exact r_pos |]. rewrite Ha in Hb. lra. }
    rewrite <- (Rinv_inv (IZR j)).
    replace (/ (2 * d)) with (/ 2 * / d) by (field; lra).
    replace (/ / IZR j) with (/ 2 * / (/ 2 * / IZR j)) by (field; lra).
    apply Rmult_le_compat_l; [lra |].
    apply Rinv_le_contravar.
    + apply Rmult_lt_0_compat; [lra | apply Rinv_0_lt_compat; exact Hjr].
    + replace (/ 2 * / IZR j) with (/ (2 * IZR j)) by (field; lra). exact Hle.
  - intros Hb.
    assert (Hle : / (2 * IZR j) <= d).
    { rewrite <- (Rinv_inv d).
      apply Rinv_le_contravar; [apply Rinv_0_lt_compat; exact Hd |].
      replace (/ d) with (2 * / (2 * d)) by (field; lra). lra. }
    rewrite Ha.
    assert (Hm : r * / (2 * IZR j) <= r * d)
      by (apply Rmult_le_compat_l; lra).
    lra.
Qed.

Lemma closed_form_pos : 0 < 1 / (2 * (a / r - 1)).
Proof.
  pose proof gap_pos as Hd.
  apply Rdiv_lt_0_compat; lra.
Qed.

End MPlusExact.

Lemma alpha_pos (m : Z) (rho : R) :
  (1 <= m)%Z -> 0 < rho -> 0 < Exact.alpha m rho.
Proof.
  intros Hm Hrho. unfold Exact.alpha.
  assert (Hmr : 1 <= IZR m) by (apply IZR_le; exact Hm).
  apply Rmult_lt_0_compat; [| apply sqrt_lt_R0; exact Hrho].
  assert (0 < 1 / (2 * IZR m)) by (apply Rdiv_lt_0_compat; lra).
  lra.
Qed.

(** In exact arithmetic the closed form is the least positive integer at
    which the bound holds. *)
Lemma m_plus_minimal_exact (rho rho_plus : R) (m : Z) :
  0 < rho < 1 -> 0 < rho_plus < 1 -> (1 <= m)%Z ->
  Exact.theta (Exact.alpha m rho) < 1 - sqrt rho_plus ->
  let t := Exact.theta (Exact.alpha m rho) in
  let mp := Exact.m_plus (Exact.alpha m rho) rho_plus in
  (1 <= mp)%Z /\
  Exact.m_plus_bound t rho_plus mp /\
  ~ Exact.m_plus_bound t rho_plus (mp - 1) /\
  (forall j : Z, (0 <= j < mp)%Z -> ~ Exact.m_plus_bound t rho_plus j).
Proof.
  intros Hrho Hrp Hm Hth t mp.
  set (a := Exact.alpha m rho) in *.
  assert (Hr : 0 < sqrt rho_plus) by (apply sqrt_lt_R0; lra).
  assert (Har : sqrt rho_plus < a) by (unfold t, Exact.theta in Hth; lra).
  pose proof (closed_form_pos a (sqrt rho_plus) Hr Har) as Hx.
  pose proof (Zceil_bound (1 / (2 * (a / sqrt rho_plus - 1)))) as [Hlo Hhi].
  fold (Exact.m_plus a rho_plus) in Hlo, Hhi. fold mp in Hlo, Hhi.
  assert (Hmp : (1 <= mp)%Z).
  { assert (Hlt : (0 < mp)%Z) by (apply lt_IZR; lra). lia. }
  assert (Hbelow : forall j : Z, (0 <= j < mp)%Z ->
                                 ~ Exact.m_plus_bound t rho_plus j).
  { intros j [Hj0 Hjmp] [Hne Hb].
    assert (Hjpos : (0 < j)%Z) by lia.
    unfold t, Exact.theta in Hb.
    apply (bound_iff_ge a (sqrt rho_plus) Hr Har j Hjpos) in Hb.
    assert (Hj1 : IZR j <= IZR mp - 1).
    { rewrite <- minus_IZR. apply IZR_le. lia. }
    lra. }
  split; [exact Hmp |].
  split; [| split; [apply Hbelow; lia | exact Hbelow]].
  split; [lia |].
  unfold t, Exact.theta.
  apply (bound_iff_ge a (sqrt rho_plus) Hr Har mp); [lia | exact Hhi].
Qed.

Lemma sqrt_quarter : sqrt (1 / 4) = 1 / 2.
Proof. apply sqrt_lem_1; lra. Qed.

(** C2 (as stated, refuted). At [m = 131072] (other values as in the file)
    [theta] and [rho_plus] are computed without rounding error, both
    assertions pass and the cell returns [m_plus = 2^36]; yet in binary64 the
    bound also holds at [m_plus - 1], and over the reals the bound does not
    hold at the returned [m_plus] (the exact closed form lies above
    [2^36]). *)
Lemma m_plus_not_minimal_in_binary64 :
  exists (c : constants) (j : johnson) (jp : johnson_plus),
    constants_cell file_inputs = Ok c /\
    Provable.johnson_cell 131072 c = Ok j /\
    m_plus_cell c j = Ok jp /\
    value_R (theta j) = Exact.theta (Exact.alpha 131072 (1 / 4)) /\
    value_R (rho_plus jp) = (262144 + 2) / 1048576 /\
    m_plus jp = VInt 68719476736 /\
    m_plus_bound j (rho_plus jp) (VInt (68719476736 - 1)) = Ok true /\
    ~ Exact.m_plus_bound (value_R (theta j)) (value_R (rho_plus jp)) 68719476736.
Proof.
  do 3 eexists.
  split; [vm_compute; reflexivity |].
  split; [vm_compute; reflexivity |].
  split; [vm_compute; reflexivity |].
  cbn [theta rho_plus].
  change (value_R (VFloat 0x1.ffff8p-2))
    with (IZR 9007164895002624 / IZR (2 ^ 54)).
  change (value_R (VFloat 0x1.00008p-2))
    with (IZR 4503633987108864 / IZR (2 ^ 54)).
  split.
  { unfold Exact.theta, Exact.alpha. rewrite sqrt_quarter.
    change (2 ^ 54)%Z with 18014398509481984%Z. lra. }
  split; [change (2 ^ 54)%Z with 18014398509481984%Z; lra |].
  split; [reflexivity |].
  split; [vm_compute; reflexivity |].
  intros [_ Hb].
  set (sq := sqrt (IZR 4503633987108864 / IZR (2 ^ 54))) in *.
  assert (Hsq : sq * sq = IZR 4503633987108864 / IZR (2 ^ 54)).
  { apply sqrt_sqrt. apply Rlt_le, Rdiv_lt_0_compat; apply IZR_lt; reflexivity. }
  assert (Hpos : 0 <= sq) by apply sqrt_pos.
  set (cc := 1 + 1 / (2 * 68719476736)) in *.
  assert (Hcc : 0 <= cc) by (unfold cc; lra).
  set (al := 1 - IZR 9007164895002624 / IZR (2 ^ 54)) in *.
  assert (Hle : sq * cc <= al) by (unfold al; lra).
  assert (Hsquare : (sq * cc) * (sq * cc) <= al * al).
  { apply Rmult_le_compat; try assumption; apply Rmult_le_pos; assumption. }
  replace ((sq * cc) * (sq * cc)) with ((sq * sq) * (cc * cc)) in Hsquare by ring.
  rewrite Hsq in Hsquare. unfold al, cc in Hsquare.
  change (2 ^ 54)%Z with 18014398509481984%Z in Hsquare.
  lra.
Qed.

Lemma m_plus_bound_zero (j : johnson) (rp : value) :
  m_plus_bound j rp (VInt 0) <> Ok true.
Proof.
  unfold m_plus_bound.
  assert (Hd : (1 +! 1 /! (2 *! VInt 0))%Z
               = Raise (ZeroDivisionError "division by zero")) by reflexivity.
  rewrite Hd.
  unfold py_le, py_sub, py_mul, arith, ret. cbn [bind].
  destruct (math_sqrt (Ok rp)) as [v | x | ]; cbn [bind]; discriminate.
Qed.

Lemma m_plus_cell_returns (c : constants) (j : johnson) (jp : johnson_plus) :
  m_plus_cell c j = Ok jp ->
  exists z : Z,
    m_plus jp = VInt z /\ z <> 0%Z /\
    m_plus_closed_form j (rho_plus jp) = Ok (VInt z) /\
    m_plus_bound j (rho_plus jp) (VInt z) = Ok true.
Proof.
  intros Hjp. apply m_plus_cell_Ok in Hjp.
  destruct Hjp as (_ & _ & Hm & Hb).
  destruct (math_ceil_is_int _ _ Hm) as [z Hz].
  rewrite Hz in Hm, Hb.
  exists z. repeat split; try assumption.
  intros ->. exact (m_plus_bound_zero _ _ Hb).
Qed.

Lemma m_plus_least_at_sound (jc : Z -> constants -> result johnson)
    (c : constants) (m : Z) :
  m_plus_least_at jc c m = true ->
  exists (j : johnson) (jp : johnson_plus) (z : Z),
    jc m c = Ok j /\ m_plus_cell c j = Ok jp /\ m_plus jp = VInt z /\
    (1 <= z)%Z /\
    (z = 1%Z \/ m_plus_bound j (rho_plus jp) (VInt (z - 1)) = Ok false).
Proof.
  unfold m_plus_least_at.
  destruct (jc m c) as [j | x | ] eqn:Hj; try discriminate.
  destruct (m_plus_cell c j) as [jp | x | ] eqn:Hjp; try discriminate.
  destruct (m_plus jp) as [z | f] eqn:Hz; try discriminate.
  intros Hb. apply andb_true_iff in Hb. destruct Hb as [H1 H2].
  apply Z.leb_le in H1. apply orb_true_iff in H2.
  exists j, jp, z.
  split; [reflexivity |]. split; [exact Hjp |]. split; [exact Hz |].
  split; [exact H1 |].
  destruct H2 as [H2 | H2]; [left; apply Z.eqb_eq; exact H2 |].
  right. apply is_Ok_bool_sound. exact H2.
Qed.

Lemma m_plus_least_on_sound (jc : Z -> constants -> result johnson)
    (other : inputs) (k0 : Z) (nk : nat) (h0 : Z) (nh : nat) (m0 : Z) (nm : nat) :
  m_plus_least_on jc other k0 nk h0 nh m0 nm = true ->
  forall k' h' m : Z,
    (k0 <= k' < k0 + Z.of_nat nk)%Z -> (h0 <= h' < h0 + Z.of_nat nh)%Z ->
    (m0 <= m < m0 + Z.of_nat nm)%Z ->
    exists (c : constants) (j : johnson) (jp : johnson_plus) (z : Z),
      constants_cell (Inputs k' h' (e other) (p other) (C other) (s other)) = Ok c /\
      jc m c = Ok j /\ m_plus_cell c j = Ok jp /\ m_plus jp = VInt z /\
      (1 <= z)%Z /\
      (z = 1%Z \/ m_plus_bound j (rho_plus jp) (VInt (z - 1)) = Ok false).
Proof.
  unfold m_plus_least_on. intros Hall k' h' m Hk Hh Hm.
  pose proof (Z_range_all_sound _ _ _ Hall k' Hk) as Hk'. cbv beta in Hk'.
  pose proof (Z_range_all_sound _ _ _ Hk' h' Hh) as Hh'. cbv beta in Hh'.
  destruct (constants_cell (Inputs k' h' (e other) (p other) (C other) (s other)))
    as [c | x | ] eqn:Hc; try discriminate.
  pose proof (Z_range_all_sound _ _ _ Hh' m Hm) as Hm'.
  destruct (m_plus_least_at_sound jc c m Hm') as (j & jp & z & Hall').
  exists c, j, jp, z. split; [reflexivity | exact Hall'].
Qed.

Lemma run_m_plus_cell (i : inputs) (m0 : Z) (r : report) :
  Provable.run i m0 = Ok r \/ UDR.run i m0 = Ok r ->
  m_plus_cell (r_constants r) (r_johnson r) = Ok (r_plus r).
Proof.
  intros [Hr | Hr].
  - apply Provable_run_Ok in Hr. tauto.
  - apply UDR_run_Ok in Hr. tauto.
Qed.

(** C2 (amended).  Whenever the cell that derives [m_plus] completes, in
    either notebook and for every input, [m_plus] is the Python int that the
    closed form [math.ceil(1 / (2 * (alpha / math.sqrt(rho_plus) - 1)))]
    returns, it is not [0], and the bound
    [theta <= 1 - sqrt(rho_plus) * (1 + 1 / (2 * m_plus))] evaluates to true
    at it.  In exact real arithmetic, for every rate [rho] and effective rate
    [rho_plus] in [(0,1)] and integer [m >= 1] with
    [theta < 1 - sqrt(rho_plus)], the closed form is at least [1], satisfies
    the bound, and no smaller non-negative integer does.  In binary64 the
    returned [m_plus] is likewise at least [1] with the bound false at
    [m_plus - 1] (unless [m_plus = 1], where [m_plus - 1 = 0] divides by
    zero) for every [k] from [1] to [4], [h] from [8] to [24] and [m] from
    [1] to [32] in the provable notebook, for every [k] from [1] to [8] and
    [h] from [5] to [40] in the unique-decoding notebook (the other values
    as in the files), and at the files' own values, where [m_plus = 17] and
    [m_plus = 3]. *)
Theorem m_plus_minimal :
  (forall (i : inputs) (m0 : Z) (r : report),
     Provable.run i m0 = Ok r \/ UDR.run i m0 = Ok r ->
     exists z : Z,
       m_plus (r_plus r) = VInt z /\ z <> 0%Z /\
       m_plus_closed_form (r_johnson r) (rho_plus (r_plus r)) = Ok (VInt z) /\
       m_plus_bound (r_johnson r) (rho_plus (r_plus r)) (VInt z) = Ok true) /\
  (forall (rho rho_plus : R) (m : Z),
     0 < rho < 1 -> 0 < rho_plus < 1 -> (1 <= m)%Z ->
     Exact.theta (Exact.alpha m rho) < 1 - sqrt rho_plus ->
     let t := Exact.theta (Exact.alpha m rho) in
     let mp := Exact.m_plus (Exact.alpha m rho) rho_plus in
     (1 <= mp)%Z /\
     Exact.m_plus_bound t rho_plus mp /\
     ~ Exact.m_plus_bound t rho_plus (mp - 1) /\
     (forall j : Z, (0 <= j < mp)%Z -> ~ Exact.m_plus_bound t rho_plus j)) /\
  (forall k h m : Z,
     (1 <= k <= 4)%Z -> (8 <= h <= 24)%Z -> (1 <= m <= 32)%Z ->
     exists (c : constants) (j : johnson) (jp : johnson_plus) (z : Z),
       constants_cell (Inputs k h 4 baby_bear 274 50) = Ok c /\
       Provable.johnson_cell m c = Ok j /\
       m_plus_cell c j = Ok jp /\ m_plus jp = VInt z /\ (1 <= z)%Z /\
       (z = 1%Z \/ m_plus_bound j (rho_plus jp) (VInt (z - 1)) = Ok false)) /\
  (forall k h : Z,
     (1 <= k <= 8)%Z -> (5 <= h <= 40)%Z ->
     exists (c : constants) (j : johnson) (jp : johnson_plus) (z : Z),
       constants_cell (Inputs k h 4 baby_bear 274 150) = Ok c /\
       UDR.johnson_cell file_m c = Ok j /\
       m_plus_cell c j = Ok jp /\ m_plus jp = VInt z /\ (1 <= z)%Z /\
       (z = 1%Z \/ m_plus_bound j (rho_plus jp) (VInt (z - 1)) = Ok false)) /\
  (exists r : report,
     Provable.run file_inputs file_m = Ok r /\
     m_plus (r_plus r) = VInt 17 /\
     m_plus_bound (r_johnson r) (rho_plus (r_plus r)) (VInt 17) = Ok true /\
     m_plus_bound (r_johnson r) (rho_plus (r_plus r)) (VInt 16) = Ok false) /\
  (exists r : report,
     UDR.run file_inputs_UDR file_m = Ok r /\
     m_plus (r_plus r) = VInt 3 /\
     m_plus_bound (r_johnson r) (rho_plus (r_plus r)) (VInt 3) = Ok true /\
     m_plus_bound (r_johnson r) (rho_plus (r_plus r)) (VInt 2) = Ok false).
Proof.
  split.
  { intros i m0 r Hr. apply (m_plus_cell_returns (r_constants r)).
    exact (run_m_plus_cell i m0 r Hr). }
  split; [exact m_plus_minimal_exact |].
  split.
  { intros k h m Hk Hh Hm.
    apply (m_plus_least_on_sound Provable.johnson_cell
             (Inputs 0 0 4 baby_bear 274 50) 1 4 8 17 1 32);
      [vm_compute; reflexivity | lia | lia | lia]. }
  split.
  { intros k h Hk Hh.
    apply (m_plus_least_on_sound UDR.johnson_cell
             (Inputs 0 0 4 baby_bear 274 150) 1 8 5 36 file_m 1);
      [vm_compute; reflexivity | lia | lia | unfold file_m; lia]. }
  split.
  - eexists. split; [vm_compute; reflexivity |].
    repeat split; vm_compute; reflexivity.
  - eexists. split; [vm_compute; reflexivity |].
    repeat split; vm_compute; reflexivity.
Qed.

(** The exact part of the theorem at [rho = 1/4], [m = 16] and the file's
    [rho_plus = (2^18 + 2) / 2^20]. *)
Lemma m_plus_minimal_witness :
  (1 <= Exact.m_plus (Exact.alpha 16 (1 / 4)) (131073 / 524288))%Z /\
  Exact.m_plus_bound (Exact.theta (Exact.alpha 16 (1 / 4))) (131073 / 524288)
    (Exact.m_plus (Exact.alpha 16 (1 / 4)) (131073 / 524288)) /\
  ~ Exact.m_plus_bound (Exact.theta (Exact.alpha 16 (1 / 4))) (131073 / 524288)
      (Exact.m_plus (Exact.alpha 16 (1 / 4)) (131073 / 524288) - 1).
Proof.
  assert (Hth : Exact.theta (Exact.alpha 16 (1 / 4)) < 1 - sqrt (131073 / 524288)).
  { unfold Exact.theta, Exact.alpha. rewrite sqrt_quarter.
    assert (Hs : sqrt (131073 / 524288) < 33 / 64).
    { rewrite <- (sqrt_square (33 / 64)) by lra.
      apply sqrt_lt_1; lra. }
    lra. }
  assert (H1 : 0 < 1 / 4 < 1) by lra.
  assert (H2 : 0 < 131073 / 524288 < 1) by lra.
  assert (H3 : (1 <= 16)%Z) by lia.
  pose proof (proj1 (proj2 m_plus_minimal) (1 / 4) (131073 / 524288) 16%Z
                H1 H2 H3 Hth)
    as (Ha & Hb & Hc & _).
  split; [exact Ha |]. split; [exact Hb | exact Hc].
Defined.

(** ** Monotonicity in the number of queries *)

Lemma IZR_pow2 (z : Z) : (0 <= z)%Z -> IZR (2 ^ z) = powerRZ 2 z.
Proof.
  intros Hz. destruct z as [ | q | q]; [reflexivity | | lia].
  unfold powerRZ. rewrite pow_IZR, positive_nat_Z. reflexivity.
Qed.

Lemma SF2R_finite (s : bool) (m : positive) (e : Z) :
  SF2R (S754_finite s m e)
  = IZR (if s then Z.neg m else Z.pos m) * powerRZ 2 e.
Proof.
  unfold SF2R. destruct (0 <=? e)%Z eqn:He.
  - apply Z.leb_le in He. rewrite mult_IZR, IZR_pow2 by exact He. reflexivity.
  - apply Z.leb_gt in He. rewrite IZR_pow2 by lia.
    rewrite powerRZ_neg'. unfold Rdiv. rewrite Rinv_inv. reflexivity.
Qed.

Lemma SF_pos_ltb_sound (x y : spec_float) :
  SF_pos_ltb x y = true -> 0 < SF2R x < SF2R y.
Proof.
  destruct x as [ | | | [] m1 e1]; try discriminate.
  destruct y as [ | | | [] m2 e2]; try discriminate.
  unfold SF_pos_ltb. intros Hlt. apply Z.ltb_lt in Hlt.
  rewrite !SF2R_finite.
  assert (H2 : (2 : R) <> 0) by lra.
  assert (Hp : forall z, 0 < powerRZ 2 z) by (intros z; apply powerRZ_lt; lra).
  split.
  - apply Rmult_lt_0_compat; [apply IZR_lt; lia | apply Hp].
  - set (e := Z.min e1 e2) in *.
    replace e1 with ((e1 - e) + e)%Z at 1 by lia.
    replace e2 with ((e2 - e) + e)%Z at 1 by lia.
    rewrite !powerRZ_add by exact H2.
    rewrite <- (IZR_pow2 (e1 - e)), <- (IZR_pow2 (e2 - e)) by lia.
    rewrite <- !Rmult_assoc, <- !mult_IZR.
    apply Rmult_lt_compat_r; [apply Hp | apply IZR_lt; exact Hlt].
Qed.

Lemma value_pos_ltb_sound (x y : value) :
  value_pos_ltb x y = true -> 0 < value_R x < value_R y.
Proof.
  destruct x as [ | f]; [discriminate |].
  destruct y as [ | g]; [discriminate |].
  apply SF_pos_ltb_sound.
Qed.

Lemma bits_lt (x y : R) : 0 < y < x -> Exact.bits x < Exact.bits y.
Proof.
  intros [Hy Hxy]. unfold Exact.bits.
  pose proof ln_2_pos as Hln2.
  assert (Hln : ln y < ln x) by (apply ln_increasing; assumption).
  apply Ropp_lt_contravar.
  apply Rmult_lt_compat_r; [apply Rinv_0_lt_compat; exact Hln2 | exact Hln].
Qed.

Lemma queries_strictly_decrease (theta : R) (s s' : Z) :
  0 < theta < 1 -> (s < s')%Z ->
  Exact.e_FRI_queries theta s' < Exact.e_FRI_queries theta s.
Proof.
  intros Hth Hs. unfold Exact.e_FRI_queries.
  set (b := 1 - theta).
  assert (Hb : 0 < b < 1) by (unfold b; lra).
  replace s' with (s + (s' - s))%Z by lia.
  rewrite powerRZ_add by lra.
  assert (Hps : 0 < powerRZ b s) by (apply powerRZ_lt; lra).
  rewrite <- (Rmult_1_r (powerRZ b s)) at 2.
  apply Rmult_lt_compat_l; [exact Hps |].
  destruct (s' - s)%Z as [ | q | q] eqn:Hd; try lia.
  unfold powerRZ.
  apply pow_lt_1_compat; [lra | apply Pos2Nat.is_pos].
Qed.

(** C6 (as stated, refuted). In the provable regime with the file's other
    values ([theta = 31/64]), raising [s] from [108] to [109] leaves [e_IOP],
    hence the reported bits, unchanged: the smaller [e_FRI_queries] is
    absorbed when it is added to [e_FRI_constant].  Raising [s] from [2000]
    to [2001] leaves [e_FRI_queries] itself unchanged: both powers underflow
    to [0.0]. *)
Lemma queries_monotonicity_fails_in_binary64 :
  (exists r r' : report,
     Provable.run (with_queries file_inputs 108) file_m = Ok r /\
     Provable.run (with_queries file_inputs 109) file_m = Ok r' /\
     0 < value_R (theta (r_johnson r)) < 1 /\
     e_IOP (r_iop r') = e_IOP (r_iop r) /\
     ~ bits r < bits r') /\
  (exists r r' : report,
     Provable.run (with_queries file_inputs 2000) file_m = Ok r /\
     Provable.run (with_queries file_inputs 2001) file_m = Ok r' /\
     e_FRI_queries (r_fri r') = e_FRI_queries (r_fri r) /\
     ~ value_R (e_FRI_queries (r_fri r')) < value_R (e_FRI_queries (r_fri r))).
Proof.
  split.
  - do 2 eexists.
    split; [vm_compute; reflexivity |].
    split; [vm_compute; reflexivity |].
    split.
    + cbn [theta r_johnson].
      change (value_R (VFloat 0.484375)) with (IZR 8725724278030336 / IZR (2 ^ 54)).
      change (2 ^ 54)%Z with 18014398509481984%Z. lra.
    + split; [reflexivity | apply Rlt_irrefl].
  - do 2 eexists.
    split; [vm_compute; reflexivity |].
    split; [vm_compute; reflexivity |].
    split; [reflexivity | apply Rlt_irrefl].
Qed.

Lemma robust_step_sound (r r' : report) :
  robust_step (Ok r) (Ok r') = true -> queries_step_decreases r r'.
Proof.
  unfold robust_step, queries_step_decreases. intros Hall x x' Hx Hx'.
  rewrite forallb_forall in Hall. specialize (Hall x Hx).
  rewrite forallb_forall in Hall. specialize (Hall x' Hx').
  apply andb_true_iff in Hall. destruct Hall as [Hq Ht].
  split; [exact (value_pos_ltb_sound _ _ Hq) |].
  destruct (total_from r x) as [t | | ]; try discriminate.
  destruct (total_from r' x') as [t' | | ]; try discriminate.
  exists t, t'. split; [reflexivity | split; [reflexivity |]].
  exact (value_pos_ltb_sound _ _ Ht).
Qed.

Lemma robust_upto_sound (run : inputs -> result report) (i : inputs) (n : nat) :
  robust_upto run i n = true ->
  forall s : Z, (1 <= s <= Z.of_nat n)%Z ->
    exists r r' : report,
      run (with_queries i s) = Ok r /\
      run (with_queries i (s + 1)) = Ok r' /\
      queries_step_decreases r r'.
Proof.
  unfold robust_upto. intros Hall s Hs.
  pose proof (chain_all_sound robust_step
                (fun j => run (with_queries i (Z.of_nat j))) n 1 Hall
                (Z.to_nat s)) as Hstep.
  cbv beta in Hstep.
  replace (Z.of_nat (S (Z.to_nat s))) with (s + 1)%Z in Hstep by lia.
  rewrite Z2Nat.id in Hstep by lia.
  assert (Hrange : (1 <= Z.to_nat s < 1 + n)%nat) by lia.
  specialize (Hstep Hrange).
  destruct (run (with_queries i s)) as [r | | ]; try discriminate.
  destruct (run (with_queries i (s + 1))) as [r' | | ]; try discriminate.
  exists r, r'. split; [reflexivity | split; [reflexivity |]].
  exact (robust_step_sound r r' Hstep).
Qed.

(** In each regime the FRI cell ends with
    [e_FRI = e_FRI_constant + e_FRI_queries]. *)
Lemma Provable_fri_sum (i : inputs) (c : constants) (j : johnson) (f : fri) :
  Provable.fri_cell i c j = Ok f ->
  (e_FRI_constant f +! e_FRI_queries f)%Z = Ok (e_FRI f).
Proof.
  unfold Provable.fri_cell. intros Hf. inv_bind Hf.
  injection Hf as <-. cbn [e_FRI_constant e_FRI_queries e_FRI]. assumption.
Qed.

Lemma Conjectured_fri_sum (i : inputs) (q : Conjectured.conjecture)
    (c : constants) (m0 : Z) (t : value) (f : fri) :
  Conjectured.fri_cell i q c m0 t = Ok f ->
  (e_FRI_constant f +! e_FRI_queries f)%Z = Ok (e_FRI f).
Proof.
  unfold Conjectured.fri_cell. intros Hf. inv_bind Hf.
  injection Hf as <-. cbn [e_FRI_constant e_FRI_queries e_FRI]. assumption.
Qed.

Lemma UDR_fri_sum (i : inputs) (c : constants) (j : johnson) (f : fri) :
  UDR.fri_cell i c j = Ok f ->
  (e_FRI_constant f +! e_FRI_queries f)%Z = Ok (e_FRI f).
Proof.
  unfold UDR.fri_cell. intros Hf. inv_bind Hf.
  injection Hf as <-. cbn [e_FRI_constant e_FRI_queries e_FRI]. assumption.
Qed.

Lemma total_from_cells (i : inputs) (r : report) (c : constants) (Lp : value) :
  (e_FRI_constant (r_fri r) +! e_FRI_queries (r_fri r))%Z = Ok (e_FRI (r_fri r)) ->
  iop_cell i c (r_fri r) Lp = Ok (r_iop r) ->
  total_from r (e_FRI_queries (r_fri r)) = Ok (e_IOP (r_iop r)).
Proof.
  intros Hf Ho. apply iop_cell_Ok in Ho.
  destruct Ho as (_ & _ & _ & _ & _ & Hsum).
  unfold total_from. step Hf. exact Hsum.
Qed.

Lemma total_from_run (i : inputs) (m0 : Z) (q : Conjectured.conjecture)
    (r : report) :
  Provable.run i m0 = Ok r \/ Conjectured.run i m0 q = Ok r
  \/ UDR.run i m0 = Ok r ->
  total_from r (e_FRI_queries (r_fri r)) = Ok (e_IOP (r_iop r)).
Proof.
  intros [Hr | [Hr | Hr]].
  - apply Provable_run_Ok in Hr. destruct Hr as (_ & _ & Hf & _ & _ & Ho).
    exact (total_from_cells i r _ _ (Provable_fri_sum _ _ _ _ Hf) Ho).
  - apply Conjectured_run_inv in Hr.
    destruct Hr as (rp & ep & _ & _ & _ & _ & _ & Hf & _ & Ho).
    exact (total_from_cells i r _ _ (Conjectured_fri_sum _ _ _ _ _ _ Hf) Ho).
  - apply UDR_run_Ok in Hr. destruct Hr as (_ & _ & Hf & _ & _ & Ho).
    exact (total_from_cells i r _ _ (UDR_fri_sum _ _ _ _ Hf) Ho).
Qed.

(** C6 (amended).  In exact arithmetic, with [0 < theta < 1], the other five
    terms held fixed and the total positive, raising [s] strictly lowers
    [e_FRI_queries = (1 - theta)^s] and strictly raises [-log2(e_IOP)]; this
    covers every regime, which differ only in [theta] and in the other terms.
    In binary64, every completed run has
    [e_IOP = e_FRI_constant + e_FRI_queries + e_ALI + e_DEEP + e_PLONK +
    e_PLOOKUP] summed in this order, and at the files' other values both
    [e_FRI_queries] and [e_IOP] stay positive and strictly decrease at each
    step from [s] to [s + 1], for [s] from [1] to [107] (provable), [60]
    (conjectured) and [220] (unique decoding), whichever of the correctly
    rounded power and its two neighbouring floats [math.pow] returns.  The
    logarithm that the notebook prints is a binary64 rounding of
    [log2(e_IOP)]; nothing is stated about it. *)
Theorem queries_monotonicity :
  (forall (theta e_FRI_constant e_ALI e_DEEP e_PLONK e_PLOOKUP : R) (s s' : Z),
     0 < theta < 1 -> (s < s')%Z ->
     0 < Exact.e_IOP e_FRI_constant (Exact.e_FRI_queries theta s')
           e_ALI e_DEEP e_PLONK e_PLOOKUP ->
     Exact.e_FRI_queries theta s' < Exact.e_FRI_queries theta s /\
     Exact.bits (Exact.e_IOP e_FRI_constant (Exact.e_FRI_queries theta s)
                   e_ALI e_DEEP e_PLONK e_PLOOKUP)
     < Exact.bits (Exact.e_IOP e_FRI_constant (Exact.e_FRI_queries theta s')
                     e_ALI e_DEEP e_PLONK e_PLOOKUP)) /\
  (forall (i : inputs) (m0 : Z) (q : Conjectured.conjecture) (r : report),
     Provable.run i m0 = Ok r \/ Conjectured.run i m0 q = Ok r
     \/ UDR.run i m0 = Ok r ->
     total_from r (e_FRI_queries (r_fri r)) = Ok (e_IOP (r_iop r))) /\
  (forall s : Z, (1 <= s <= 107)%Z ->
     exists r r' : report,
       Provable.run (with_queries file_inputs s) file_m = Ok r /\
       Provable.run (with_queries file_inputs (s + 1)) file_m = Ok r' /\
       queries_step_decreases r r') /\
  (forall s : Z, (1 <= s <= 60)%Z ->
     exists r r' : report,
       Conjectured.run (with_queries file_inputs s) file_m file_conjecture
         = Ok r /\
       Conjectured.run (with_queries file_inputs (s + 1)) file_m file_conjecture
         = Ok r' /\
       queries_step_decreases r r') /\
  (forall s : Z, (1 <= s <= 220)%Z ->
     exists r r' : report,
       UDR.run (with_queries file_inputs_UDR s) file_m = Ok r /\
       UDR.run (with_queries file_inputs_UDR (s + 1)) file_m = Ok r' /\
       queries_step_decreases r r').
Proof.
  split; [| split; [| split; [| split]]].
  - intros theta c a d pk pl s s' Hth Hs Hpos.
    pose proof (queries_strictly_decrease theta s s' Hth Hs) as Hq.
    split; [exact Hq |].
    apply bits_lt. unfold Exact.e_IOP in *. lra.
  - exact total_from_run.
  - apply (robust_upto_sound (fun i => Provable.run i file_m) file_inputs 107).
    vm_compute; reflexivity.
  - apply (robust_upto_sound
             (fun i => Conjectured.run i file_m file_conjecture) file_inputs 60).
    vm_compute; reflexivity.
  - apply (robust_upto_sound (fun i => UDR.run i file_m) file_inputs_UDR 220).
    vm_compute; reflexivity.
Qed.

(** The exact part of the theorem at [theta = 31/64], from [s = 50] to
    [s = 51], with a constant term [1] and the other terms [0]. *)
Lemma queries_monotonicity_witness :
  Exact.e_FRI_queries (31 / 64) 51 < Exact.e_FRI_queries (31 / 64) 50 /\
  Exact.bits (Exact.e_IOP 1 (Exact.e_FRI_queries (31 / 64) 50) 0 0 0 0)
  < Exact.bits (Exact.e_IOP 1 (Exact.e_FRI_queries (31 / 64) 51) 0 0 0 0).
Proof.
  assert (Hth : 0 < 31 / 64 < 1) by lra.
  assert (Hs : (50 < 51)%Z) by lia.
  assert (Hpos : 0 < Exact.e_IOP 1 (Exact.e_FRI_queries (31 / 64) 51) 0 0 0 0).
  { unfold Exact.e_IOP, Exact.e_FRI_queries.
    assert (0 < powerRZ (1 - 31 / 64) 51) by (apply powerRZ_lt; lra).
    lra. }
  exact (proj1 queries_monotonicity (31 / 64) 1 0 0 0 0 50%Z 51%Z Hth Hs Hpos).
Defined.

(** * Further properties of the notebooks *)

(** ** The admissible Johnson parameters *)

Lemma rho_plus_eq (rho H : R) :
  0 < rho -> 0 < H ->
  ExactCells.rho_plus H (ExactCells.D H rho) = rho * (1 + 2 / H).
Proof.
  intros Hr HH. unfold ExactCells.rho_plus, ExactCells.D. field. lra.
Qed.

Lemma alpha_sqrt (m : Z) (rho : R) :
  (1 <= m)%Z -> 0 < rho ->
  Exact.alpha m rho = sqrt ((1 + 1 / (2 * IZR m)) ^ 2 * rho).
Proof.
  intros Hm Hr. unfold Exact.alpha.
  assert (Hmr : 1 <= IZR m) by (apply IZR_le; exact Hm).
  assert (Hc : 0 < 1 / (2 * IZR m)) by (apply Rdiv_lt_0_compat; lra).
  rewrite sqrt_mult by (try apply pow2_ge_0; lra).
  rewrite sqrt_pow2 by lra. reflexivity.
Qed.

Lemma check_iff_real (rho H : R) (m : Z) :
  0 < rho -> 0 < H -> (1 <= m)%Z ->
  (Exact.theta (Exact.alpha m rho)
   < 1 - sqrt (ExactCells.rho_plus H (ExactCells.D H rho))
   <-> 8 * IZR m ^ 2 < H * (4 * IZR m + 1)).
Proof.
  intros Hr HH Hm.
  rewrite rho_plus_eq, alpha_sqrt by assumption.
  assert (Hmr : 1 <= IZR m) by (apply IZR_le; exact Hm).
  set (M := IZR m) in *.
  assert (Hq : 0 < 2 / H) by (apply Rdiv_lt_0_compat; lra).
  assert (Hdiff : (1 + 1 / (2 * M)) ^ 2 * rho - rho * (1 + 2 / H)
                  = rho / (4 * M ^ 2 * H) * (H * (4 * M + 1) - 8 * M ^ 2)).
  { field. lra. }
  assert (Hfac : 0 < rho / (4 * M ^ 2 * H)).
  { apply Rdiv_lt_0_compat; [lra |].
    apply Rmult_lt_0_compat; [| lra].
    assert (0 < M ^ 2) by (apply pow_lt; lra). lra. }
  unfold Exact.theta.
  split.
  - intros Hlt.
    assert (Hs : sqrt (rho * (1 + 2 / H)) < sqrt ((1 + 1 / (2 * M)) ^ 2 * rho))
      by lra.
    apply sqrt_lt_0_alt in Hs.
    assert (Hp : 0 < rho / (4 * M ^ 2 * H) * (H * (4 * M + 1) - 8 * M ^ 2))
      by lra.
    assert (Hz : 0 < H * (4 * M + 1) - 8 * M ^ 2).
    { apply Rmult_lt_reg_l with (rho / (4 * M ^ 2 * H)); [exact Hfac |].
      rewrite Rmult_0_r. exact Hp. }
    lra.
  - intros Hlt.
    assert (Hp : 0 < rho / (4 * M ^ 2 * H) * (H * (4 * M + 1) - 8 * M ^ 2))
      by (apply Rmult_lt_0_compat; lra).
    assert (Hs : sqrt (rho * (1 + 2 / H)) < sqrt ((1 + 1 / (2 * M)) ^ 2 * rho)).
    { apply sqrt_lt_1_alt. split; [| lra].
      apply Rmult_le_pos; lra. }
    lra.
Qed.

Lemma threshold_Z (n m : Z) :
  (1 <= n)%Z -> (1 <= m)%Z ->
  (8 * m ^ 2 < 2 * n * (4 * m + 1) <-> m <= n)%Z.
Proof.
  intros Hn Hm. split; intros Hlt; nia.
Qed.

(** X1. The first assertion of the provable notebook,
    [theta < 1 - sqrt(rho_plus)] with [rho_plus = (H + 2) / D], [D = H / rho]
    and [H = 2^h], admits exactly the Johnson parameters [m <= H / 2] in exact
    arithmetic, whatever the rate.  The binary64 notebook agrees at the file's
    values: it completes at [m = 2^17 = 131072] and stops with
    [AssertionError] at [m = 131073]. *)
Theorem johnson_check_threshold :
  (forall (rho : R) (h m : Z),
     0 < rho -> (1 <= h)%Z -> (1 <= m)%Z ->
     (Exact.theta (Exact.alpha m rho)
      < 1 - sqrt (ExactCells.rho_plus (IZR (2 ^ h))
                    (ExactCells.D (IZR (2 ^ h)) rho))
      <-> (m <= 2 ^ (h - 1))%Z)) /\
  (exists r : report, Provable.run file_inputs (2 ^ 17) = Ok r) /\
  Provable.run file_inputs (2 ^ 17 + 1) = Raise AssertionError.
Proof.
  split; [| split; [eexists; vm_compute; reflexivity | vm_compute; reflexivity]].
  intros rho h m Hr Hh Hm.
  assert (HH : (0 < 2 ^ h)%Z) by (apply Z.pow_pos_nonneg; lia).
  rewrite check_iff_real by (try apply IZR_lt; assumption).
  replace (2 ^ h)%Z with (2 * 2 ^ (h - 1))%Z
    by (rewrite <- Z.pow_succ_r by lia; f_equal; lia).
  assert (Hn : (1 <= 2 ^ (h - 1))%Z).
  { assert (0 < 2 ^ (h - 1))%Z by (apply Z.pow_pos_nonneg; lia). lia. }
  rewrite <- (threshold_Z (2 ^ (h - 1)) m Hn Hm).
  set (n := (2 ^ (h - 1))%Z).
  replace (8 * IZR m ^ 2) with (IZR (8 * m ^ 2))
    by (rewrite mult_IZR, (pow_IZR m 2); reflexivity).
  replace (IZR (2 * n) * (4 * IZR m + 1)) with (IZR (2 * n * (4 * m + 1)))
    by (rewrite !mult_IZR, plus_IZR, mult_IZR; reflexivity).
  split; [apply lt_IZR | apply IZR_lt].
Qed.

(** The exact part at the file's values, [m = 16]. *)
Lemma johnson_check_threshold_witness :
  Exact.theta (Exact.alpha 16 (1 / 4))
  < 1 - sqrt (ExactCells.rho_plus (IZR (2 ^ 18))
                (ExactCells.D (IZR (2 ^ 18)) (1 / 4))).
Proof.
  apply (proj1 johnson_check_threshold (1 / 4) 18%Z 16%Z); [lra | lia | lia |].
  vm_compute. discriminate.
Defined.

(** In the unique-decoding notebook, [theta = (1 - rho) / 2]; in exact
    arithmetic its first assertion holds exactly when
    [8 * rho < H * (1 - rho)^2]. *)
Lemma UDR_check_iff_real (rho H : R) :
  0 < rho -> 0 < H ->
  (ExactUDR.theta (ExactUDR.alpha rho)
   < 1 - sqrt (ExactCells.rho_plus H (ExactCells.D H rho))
   <-> 8 * rho < H * (1 - rho) ^ 2).
Proof.
  intros Hr HH.
  rewrite rho_plus_eq by assumption.
  unfold ExactUDR.theta, ExactUDR.alpha.
  assert (Hq : 0 < 2 / H) by (apply Rdiv_lt_0_compat; lra).
  assert (Hrp : 0 < rho * (1 + 2 / H)) by (apply Rmult_lt_0_compat; lra).
  assert (Hhalf : 0 < (1 + rho) / 2) by lra.
  assert (Hsq : sqrt (((1 + rho) / 2) ^ 2) = (1 + rho) / 2)
    by (apply sqrt_pow2; lra).
  assert (Hdiff : ((1 + rho) / 2) ^ 2 - rho * (1 + 2 / H)
                  = (H * (1 - rho) ^ 2 - 8 * rho) / (4 * H)) by (field; lra).
  assert (H4 : 0 < / (4 * H)) by (apply Rinv_0_lt_compat; lra).
  split.
  - intros Hlt.
    assert (Hs : sqrt (rho * (1 + 2 / H)) < sqrt (((1 + rho) / 2) ^ 2))
      by (rewrite Hsq; lra).
    apply sqrt_lt_0_alt in Hs.
    assert (Hp : 0 < (H * (1 - rho) ^ 2 - 8 * rho) * / (4 * H))
      by (unfold Rdiv in Hdiff; lra).
    assert (Hz : 0 < H * (1 - rho) ^ 2 - 8 * rho).
    { apply Rmult_lt_reg_r with (/ (4 * H)); [exact H4 |].
      rewrite Rmult_0_l. exact Hp. }
    lra.
  - intros Hlt.
    assert (Hp : 0 < (H * (1 - rho) ^ 2 - 8 * rho) * / (4 * H))
      by (apply Rmult_lt_0_compat; lra).
    assert (Hs : sqrt (rho * (1 + 2 / H)) < sqrt (((1 + rho) / 2) ^ 2)).
    { apply sqrt_lt_1_alt. unfold Rdiv in Hdiff. split; lra. }
    rewrite Hsq in Hs. lra.
Qed.

Lemma UDR_first_check_on_sound (other : inputs) (k0 : Z) (nk : nat) (h0 : Z)
    (nh : nat) :
  UDR_first_check_on other k0 nk h0 nh = true ->
  forall k' h' : Z,
    (k0 <= k' < k0 + Z.of_nat nk)%Z -> (h0 <= h' < h0 + Z.of_nat nh)%Z ->
    exists (c : constants) (j : johnson) (rp : value),
      constants_cell (Inputs k' h' (e other) (p other) (C other) (s other)) = Ok c /\
      UDR.johnson_cell 16 c = Ok j /\
      ((H c +! 2) /! D c)%Z = Ok rp /\
      johnson_check j rp = Ok (2 ^ (k' + 3) <? 2 ^ h' * (2 ^ k' - 1) ^ 2)%Z.
Proof.
  unfold UDR_first_check_on. intros Hall k' h' Hk Hh.
  pose proof (Z_range_all_sound _ _ _ Hall k' Hk) as Hk'. cbv beta in Hk'.
  pose proof (Z_range_all_sound _ _ _ Hk' h' Hh) as Hh'. cbv beta in Hh'.
  destruct (constants_cell (Inputs k' h' (e other) (p other) (C other) (s other)))
    as [c | x | ] eqn:Hc; try discriminate.
  unfold UDR_first_check_at in Hh'.
  destruct (UDR.johnson_cell 16 c) as [j | x | ] eqn:Hj; try discriminate.
  destruct ((H c +! 2) /! D c)%Z as [rp | x | ] eqn:Hrp; try discriminate.
  exists c, j, rp.
  split; [reflexivity |]. split; [exact Hj |]. split; [exact Hrp |].
  apply is_Ok_bool_sound. exact Hh'.
Qed.

Lemma UDR_check_iff_Z (k h : Z) :
  (0 <= k)%Z -> (0 <= h)%Z ->
  (8 * (1 / IZR (2 ^ k)) < IZR (2 ^ h) * (1 - 1 / IZR (2 ^ k)) ^ 2
   <-> (2 ^ (k + 3) < 2 ^ h * (2 ^ k - 1) ^ 2)%Z).
Proof.
  intros Hk Hh.
  assert (HK : (0 < 2 ^ k)%Z) by (apply Z.pow_pos_nonneg; lia).
  assert (HKr : 0 < IZR (2 ^ k)) by (apply IZR_lt; exact HK).
  replace (2 ^ (k + 3))%Z with (8 * 2 ^ k)%Z
    by (rewrite Z.pow_add_r by lia; change (2 ^ 3)%Z with 8%Z; ring).
  set (K := (2 ^ k)%Z) in *. set (Hh' := (2 ^ h)%Z) in *.
  assert (Heq : IZR Hh' * (1 - 1 / IZR K) ^ 2 - 8 * (1 / IZR K)
                = (IZR (Hh' * (K - 1) ^ 2) - IZR (8 * K)) / (IZR K) ^ 2).
  { replace ((K - 1) ^ 2)%Z with ((K - 1) * (K - 1))%Z by ring.
    rewrite !mult_IZR, !minus_IZR. field. lra. }
  assert (HK2 : 0 < / (IZR K) ^ 2) by (apply Rinv_0_lt_compat, pow_lt; exact HKr).
  split.
  - intros Hlt. apply lt_IZR.
    assert (Hp : 0 < (IZR (Hh' * (K - 1) ^ 2) - IZR (8 * K)) * / IZR K ^ 2)
      by (unfold Rdiv in Heq; lra).
    assert (Hz : 0 < IZR (Hh' * (K - 1) ^ 2) - IZR (8 * K)).
    { apply Rmult_lt_reg_r with (/ IZR K ^ 2); [exact HK2 |].
      rewrite Rmult_0_l. exact Hp. }
    lra.
  - intros Hlt. apply IZR_lt in Hlt.
    assert (Hp : 0 < (IZR (Hh' * (K - 1) ^ 2) - IZR (8 * K)) * / IZR K ^ 2)
      by (apply Rmult_lt_0_compat; lra).
    unfold Rdiv in Heq. lra.
Qed.

(** X2. The first assertion of the unique-decoding notebook, where
    [theta = (1 - rho) / 2], evaluates in binary64 to the Boolean
    [2^(k+3) < 2^h * (2^k - 1)^2] for every [k] from [1] to [12] and [h] from
    [1] to [40] (the other values as in the file; the cell does not read
    [m]).  In exact arithmetic, with [rho = 2^-k] and [H = 2^h], that
    inequality is equivalent to the asserted condition for all [k] and
    [h]. *)
Theorem UDR_check_threshold :
  (forall k h : Z,
     (1 <= k <= 12)%Z -> (1 <= h <= 40)%Z ->
     exists (c : constants) (j : johnson) (rp : value),
       constants_cell (Inputs k h 4 baby_bear 274 150) = Ok c /\
       UDR.johnson_cell 16 c = Ok j /\
       ((H c +! 2) /! D c)%Z = Ok rp /\
       johnson_check j rp = Ok (2 ^ (k + 3) <? 2 ^ h * (2 ^ k - 1) ^ 2)%Z) /\
  (forall k h : Z,
     (0 <= k)%Z -> (0 <= h)%Z ->
     (ExactUDR.theta (ExactUDR.alpha (1 / IZR (2 ^ k)))
      < 1 - sqrt (ExactCells.rho_plus (IZR (2 ^ h))
                    (ExactCells.D (IZR (2 ^ h)) (1 / IZR (2 ^ k))))
      <-> (2 ^ (k + 3) < 2 ^ h * (2 ^ k - 1) ^ 2)%Z)).
Proof.
  split.
  - intros k h Hk Hh.
    apply (UDR_first_check_on_sound (Inputs 0 0 4 baby_bear 274 150) 1 12 1 40);
      [vm_compute; reflexivity | lia | lia].
  - intros k h Hk Hh.
    assert (HK : 0 < IZR (2 ^ k)) by (apply IZR_lt, Z.pow_pos_nonneg; lia).
    assert (HH : 0 < IZR (2 ^ h)) by (apply IZR_lt, Z.pow_pos_nonneg; lia).
    assert (Hr : 0 < 1 / IZR (2 ^ k)) by (apply Rdiv_lt_0_compat; lra).
    rewrite (UDR_check_iff_real _ _ Hr HH).
    apply UDR_check_iff_Z; assumption.
Qed.

(** The exact part at the values of the unique-decoding file, [k = 2] and
    [h = 20]. *)
Lemma UDR_check_threshold_witness :
  ExactUDR.theta (ExactUDR.alpha (1 / IZR (2 ^ 2)))
  < 1 - sqrt (ExactCells.rho_plus (IZR (2 ^ 20))
                (ExactCells.D (IZR (2 ^ 20)) (1 / IZR (2 ^ 2)))).
Proof.
  apply (proj2 UDR_check_threshold 2%Z 20%Z); [lia | lia |].
  vm_compute. reflexivity.
Defined.

(** ** The list-size parameter is larger than [m] *)

(** In exact arithmetic, whenever the first assertion of the provable
    notebook holds, the closed form [m_plus] is strictly larger than [m], and
    the bound fails at [m] itself. *)
Lemma m_plus_exceeds_m_exact (rho H : R) (m : Z) :
  0 < rho < 1 -> 0 < H -> (1 <= m)%Z ->
  ExactCells.rho_plus H (ExactCells.D H rho) < 1 ->
  Exact.theta (Exact.alpha m rho)
  < 1 - sqrt (ExactCells.rho_plus H (ExactCells.D H rho)) ->
  (m < Exact.m_plus (Exact.alpha m rho)
         (ExactCells.rho_plus H (ExactCells.D H rho)))%Z /\
  ~ Exact.m_plus_bound (Exact.theta (Exact.alpha m rho))
      (ExactCells.rho_plus H (ExactCells.D H rho)) m.
Proof.
  intros Hrho HH Hm Hrp1 Hth.
  assert (Hrp : rho < ExactCells.rho_plus H (ExactCells.D H rho)).
  { rewrite rho_plus_eq by lra.
    assert (0 < 2 / H) by (apply Rdiv_lt_0_compat; lra).
    assert (0 < rho * (2 / H)) by (apply Rmult_lt_0_compat; lra).
    lra. }
  set (rp := ExactCells.rho_plus H (ExactCells.D H rho)) in *.
  assert (Hrp0 : 0 < rp < 1) by lra.
  destruct (m_plus_minimal_exact rho rp m Hrho Hrp0 Hm Hth)
    as (_ & _ & _ & Hbelow).
  assert (Hlt : (m < Exact.m_plus (Exact.alpha m rho) rp)%Z).
  { assert (Hmr : 1 <= IZR m) by (apply IZR_le; exact Hm).
    assert (Hs : 0 < sqrt rho) by (apply sqrt_lt_R0; lra).
    assert (Hsr : sqrt rho < sqrt rp) by (apply sqrt_lt_1_alt; lra).
    assert (Har : sqrt rp < Exact.alpha m rho)
      by (unfold Exact.theta in Hth; lra).
    pose proof (gap_pos _ _ (Rlt_trans _ _ _ Hs Hsr) Har) as Hd.
    pose proof (Zceil_bound (1 / (2 * (Exact.alpha m rho / sqrt rp - 1))))
      as [_ Hhi].
    fold (Exact.m_plus (Exact.alpha m rho) rp) in Hhi.
    apply lt_IZR. eapply Rlt_le_trans; [| exact Hhi].
    set (d := Exact.alpha m rho / sqrt rp - 1) in *.
    assert (Hc : 0 < 1 / (2 * IZR m)) by (apply Rdiv_lt_0_compat; lra).
    assert (Hdm : d < 1 / (2 * IZR m)).
    { assert (Hq : Exact.alpha m rho / sqrt rp < 1 + 1 / (2 * IZR m)).
      { apply Rmult_lt_reg_r with (sqrt rp); [lra |].
        replace (Exact.alpha m rho / sqrt rp * sqrt rp) with (Exact.alpha m rho)
          by (field; lra).
        unfold Exact.alpha. apply Rmult_lt_compat_l; lra. }
      unfold d. lra. }
    replace (IZR m) with (1 / (2 * (1 / (2 * IZR m)))) at 1 by (field; lra).
    unfold Rdiv. rewrite !Rmult_1_l.
    apply Rinv_lt_contravar; [| lra].
    apply Rmult_lt_0_compat; lra. }
  split; [exact Hlt |].
  apply Hbelow. lia.
Qed.

Lemma m_plus_above_on_sound (i : inputs) (m0 : Z) (n : nat) :
  m_plus_above_on i m0 n = true ->
  forall m : Z, (m0 <= m < m0 + Z.of_nat n)%Z ->
    exists (c : constants) (j : johnson) (jp : johnson_plus) (z : Z),
      constants_cell i = Ok c /\ Provable.johnson_cell m c = Ok j /\
      m_plus_cell c j = Ok jp /\ m_plus jp = VInt z /\ (m < z)%Z /\
      m_plus_bound j (rho_plus jp) (VInt m) = Ok false.
Proof.
  unfold m_plus_above_on. intros Hall m Hm.
  destruct (constants_cell i) as [c | x | ] eqn:Hc; try discriminate.
  pose proof (Z_range_all_sound _ _ _ Hall m Hm) as Hat.
  unfold m_plus_above_at in Hat.
  destruct (Provable.johnson_cell m c) as [j | x | ] eqn:Hj; try discriminate.
  destruct (m_plus_cell c j) as [jp | x | ] eqn:Hjp; try discriminate.
  destruct (m_plus jp) as [z | f] eqn:Hz; try discriminate.
  apply andb_true_iff in Hat. destruct Hat as [Hlt Hb].
  apply Z.ltb_lt in Hlt. apply is_Ok_bool_sound in Hb.
  exists c, j, jp, z. auto 10.
Qed.

(** X3. With the file's other values, for every Johnson parameter [m] from
    [1] to [256] the provable notebook's [m_plus] cell completes with an int
    [m_plus] strictly larger than [m], and the bound
    [theta <= 1 - sqrt(rho_plus) * (1 + 1 / (2 * m))] evaluates to false at
    [m] itself: the list size cannot reuse [m].  In exact arithmetic the
    same holds whenever the first assertion does. *)
Theorem m_plus_exceeds_m :
  (forall m : Z, (1 <= m <= 256)%Z ->
     exists (c : constants) (j : johnson) (jp : johnson_plus) (z : Z),
       constants_cell file_inputs = Ok c /\
       Provable.johnson_cell m c = Ok j /\
       m_plus_cell c j = Ok jp /\ m_plus jp = VInt z /\ (m < z)%Z /\
       m_plus_bound j (rho_plus jp) (VInt m) = Ok false) /\
  (forall (rho H : R) (m : Z),
     0 < rho < 1 -> 0 < H -> (1 <= m)%Z ->
     ExactCells.rho_plus H (ExactCells.D H rho) < 1 ->
     Exact.theta (Exact.alpha m rho)
     < 1 - sqrt (ExactCells.rho_plus H (ExactCells.D H rho)) ->
     (m < Exact.m_plus (Exact.alpha m rho)
            (ExactCells.rho_plus H (ExactCells.D H rho)))%Z /\
     ~ Exact.m_plus_bound (Exact.theta (Exact.alpha m rho))
         (ExactCells.rho_plus H (ExactCells.D H rho)) m).
Proof.
  split.
  - intros m Hm.
    apply (m_plus_above_on_sound file_inputs 1 256);
      [vm_compute; reflexivity | lia].
  - exact m_plus_exceeds_m_exact.
Qed.

(** The exact part at [rho = 1/4], [H = 8], [m = 1] (so [rho_plus = 5/16]). *)
Lemma m_plus_exceeds_m_witness :
  (1 < Exact.m_plus (Exact.alpha 1 (1 / 4))
         (ExactCells.rho_plus 8 (ExactCells.D 8 (1 / 4))))%Z /\
  ~ Exact.m_plus_bound (Exact.theta (Exact.alpha 1 (1 / 4)))
      (ExactCells.rho_plus 8 (ExactCells.D 8 (1 / 4))) 1.
Proof.
  assert (Hrp : ExactCells.rho_plus 8 (ExactCells.D 8 (1 / 4)) = 5 / 16)
    by (unfold ExactCells.rho_plus, ExactCells.D; field).
  assert (Hs : sqrt (5 / 16) < 5 / 8).
  { replace (5 / 8) with (sqrt ((5 / 8) ^ 2)) by (apply sqrt_pow2; lra).
    apply sqrt_lt_1_alt. lra. }
  apply (proj2 m_plus_exceeds_m (1 / 4) 8 1%Z); try lra; try lia.
  rewrite Hrp. unfold Exact.theta, Exact.alpha.
  rewrite sqrt_quarter. lra.
Defined.

(** ** The trade-off in the Johnson parameter *)

Lemma pow_lt_strict (x y : R) (n : nat) :
  0 <= x < y -> (0 < n)%nat -> x ^ n < y ^ n.
Proof.
  intros [Hx Hxy] Hn. induction n as [ | n IH]; [lia |].
  destruct n as [ | n].
  - simpl. lra.
  - assert (IH' : x ^ S n < y ^ S n) by (apply IH; lia).
    assert (Hxn : 0 <= x ^ S n) by (apply pow_le; exact Hx).
    change (x * x ^ S n < y * y ^ S n).
    apply Rle_lt_trans with (x * y ^ S n).
    + apply Rmult_le_compat_l; lra.
    + apply Rmult_lt_compat_r; lra.
Qed.

Lemma alpha_decreases (m m' : Z) (rho : R) :
  (1 <= m < m')%Z -> 0 < rho -> Exact.alpha m' rho < Exact.alpha m rho.
Proof.
  intros [Hm Hmm] Hrho. unfold Exact.alpha.
  assert (Hmr : 1 <= IZR m) by (apply IZR_le; exact Hm).
  assert (Hmmr : IZR m < IZR m') by (apply IZR_lt; exact Hmm).
  apply Rmult_lt_compat_r; [apply sqrt_lt_R0; exact Hrho |].
  apply Rplus_lt_compat_l.
  unfold Rdiv. rewrite !Rmult_1_l.
  apply Rinv_lt_contravar; [| lra].
  apply Rmult_lt_0_compat; lra.
Qed.

(** In exact arithmetic, in the provable regime, raising the Johnson
    parameter [m] strictly raises [e_FRI_constant] and strictly lowers
    [e_FRI_queries]. *)
Lemma johnson_parameter_tradeoff_exact (m m' h s : Z) (rho D F L : R) :
  (1 <= m < m')%Z -> (6 <= h)%Z -> (1 <= s)%Z ->
  0 < rho -> 0 < D -> 0 < F -> 1 / 2 < L ->
  ExactCells.e_FRI_constant m h rho D F L
  < ExactCells.e_FRI_constant m' h rho D F L /\
  Exact.e_FRI_queries (Exact.theta (Exact.alpha m' rho)) s
  < Exact.e_FRI_queries (Exact.theta (Exact.alpha m rho)) s.
Proof.
  intros Hm Hh Hs Hrho HD HF HL.
  assert (Hmr : 1 <= IZR m) by (apply IZR_le; lia).
  assert (Hmmr : IZR m < IZR m') by (apply IZR_lt; lia).
  split.
  - unfold ExactCells.e_FRI_constant.
    assert (Hgap : ExactCells.e_proximity_gap m rho D F
                   < ExactCells.e_proximity_gap m' rho D F).
    { unfold ExactCells.e_proximity_gap.
      assert (HR : 0 < Rpower rho (3 / 2)) by (apply exp_pos).
      assert (HK : 0 < D ^ 2 / (3 * Rpower rho (3 / 2) * F)).
      { apply Rdiv_lt_0_compat; [apply pow_lt; exact HD |].
        apply Rmult_lt_0_compat; lra. }
      replace ((IZR m + 1 / 2) ^ 7 / (3 * Rpower rho (3 / 2)) * D ^ 2 / F)
        with ((IZR m + 1 / 2) ^ 7 * (D ^ 2 / (3 * Rpower rho (3 / 2) * F)))
        by (field; lra).
      replace ((IZR m' + 1 / 2) ^ 7 / (3 * Rpower rho (3 / 2)) * D ^ 2 / F)
        with ((IZR m' + 1 / 2) ^ 7 * (D ^ 2 / (3 * Rpower rho (3 / 2) * F)))
        by (field; lra).
      apply Rmult_lt_compat_r; [exact HK |].
      apply pow_lt_strict; [lra | lia]. }
    assert (Hfold : ExactCells.folding_error m h rho D F
                    <= ExactCells.folding_error m' h rho D F).
    { unfold ExactCells.folding_error.
      assert (Hsq : 0 < sqrt rho) by (apply sqrt_lt_R0; exact Hrho).
      assert (Hfl : 0 <= IZR (Zfloor ((IZR h + 2) / 4 - 2))).
      { apply IZR_le, Zfloor_lub.
        assert (6 <= IZR h) by (apply IZR_le; exact Hh). lra. }
      set (fl := IZR (Zfloor ((IZR h + 2) / 4 - 2))) in *.
      assert (HJ : 0 <= (D + 1) * 16 * fl / (sqrt rho * F)).
      { apply Rmult_le_pos; [apply Rmult_le_pos; lra |].
        left. apply Rinv_0_lt_compat, Rmult_lt_0_compat; lra. }
      replace ((2 * IZR m + 1) * (D + 1) * 16 * fl / (sqrt rho * F))
        with ((2 * IZR m + 1) * ((D + 1) * 16 * fl / (sqrt rho * F)))
        by (field; lra).
      replace ((2 * IZR m' + 1) * (D + 1) * 16 * fl / (sqrt rho * F))
        with ((2 * IZR m' + 1) * ((D + 1) * 16 * fl / (sqrt rho * F)))
        by (field; lra).
      apply Rmult_le_compat_r; lra. }
    assert (Hprod : (L - 1 / 2) * ExactCells.e_proximity_gap m rho D F
                    < (L - 1 / 2) * ExactCells.e_proximity_gap m' rho D F)
      by (apply Rmult_lt_compat_l; lra).
    lra.
  - unfold Exact.e_FRI_queries, Exact.theta.
    pose proof (alpha_decreases m m' rho Hm Hrho) as Hal.
    assert (Hpos : 0 < Exact.alpha m' rho) by (apply alpha_pos; [lia | exact Hrho]).
    replace (1 - (1 - Exact.alpha m' rho)) with (Exact.alpha m' rho) by ring.
    replace (1 - (1 - Exact.alpha m rho)) with (Exact.alpha m rho) by ring.
    destruct s as [ | q | q]; try lia.
    unfold powerRZ. apply pow_lt_strict; [lra | apply Pos2Nat.is_pos].
Qed.

Lemma tradeoff_upto_sound (run : Z -> result report) (n : nat) :
  tradeoff_upto run n = true ->
  forall m : Z, (1 <= m <= Z.of_nat n)%Z ->
    exists r r' : report,
      run m = Ok r /\ run (m + 1)%Z = Ok r' /\
      0 < value_R (e_FRI_constant (r_fri r))
        < value_R (e_FRI_constant (r_fri r')) /\
      0 < value_R (e_FRI_queries (r_fri r'))
        < value_R (e_FRI_queries (r_fri r)).
Proof.
  unfold tradeoff_upto. intros Hall m Hm.
  pose proof (chain_all_sound tradeoff_step
                (fun j => run (Z.of_nat j)) n 1 Hall (Z.to_nat m)) as Hstep.
  cbv beta in Hstep.
  replace (Z.of_nat (S (Z.to_nat m))) with (m + 1)%Z in Hstep by lia.
  rewrite Z2Nat.id in Hstep by lia.
  assert (Hrange : (1 <= Z.to_nat m < 1 + n)%nat) by lia.
  specialize (Hstep Hrange). unfold tradeoff_step in Hstep.
  destruct (run m) as [r | | ]; try discriminate.
  destruct (run (m + 1)%Z) as [r' | | ]; try discriminate.
  apply andb_true_iff in Hstep. destruct Hstep as [Hc Hq].
  exists r, r'. split; [reflexivity | split; [reflexivity |]].
  split; [exact (value_pos_ltb_sound _ _ Hc) | exact (value_pos_ltb_sound _ _ Hq)].
Qed.

(** X6. With the file's other values, for every Johnson parameter [m] from
    [1] to [39] the provable notebook completes at [m] and at [m + 1], and
    going from [m] to [m + 1] strictly raises [e_FRI_constant] and strictly
    lowers [e_FRI_queries].  In exact arithmetic the same holds for all
    [1 <= m < m'] (for [h >= 6], where the folding term is non-negative,
    [L > 1/2], [s >= 1] and positive [rho], [D], [F]). *)
Theorem johnson_parameter_tradeoff :
  (forall m : Z, (1 <= m <= 39)%Z ->
     exists r r' : report,
       Provable.run file_inputs m = Ok r /\
       Provable.run file_inputs (m + 1) = Ok r' /\
       0 < value_R (e_FRI_constant (r_fri r))
         < value_R (e_FRI_constant (r_fri r')) /\
       0 < value_R (e_FRI_queries (r_fri r'))
         < value_R (e_FRI_queries (r_fri r))) /\
  (forall (m m' h s : Z) (rho D F L : R),
     (1 <= m < m')%Z -> (6 <= h)%Z -> (1 <= s)%Z ->
     0 < rho -> 0 < D -> 0 < F -> 1 / 2 < L ->
     ExactCells.e_FRI_constant m h rho D F L
     < ExactCells.e_FRI_constant m' h rho D F L /\
     Exact.e_FRI_queries (Exact.theta (Exact.alpha m' rho)) s
     < Exact.e_FRI_queries (Exact.theta (Exact.alpha m rho)) s).
Proof.
  split.
  - apply (tradeoff_upto_sound (Provable.run file_inputs) 39).
    vm_compute; reflexivity.
  - exact johnson_parameter_tradeoff_exact.
Qed.

(** The exact part from [m = 16] to [m = 17] at [h = 18], [rho = 1/4],
    [D = 2^20], [L = 278]. *)
Lemma johnson_parameter_tradeoff_witness :
  ExactCells.e_FRI_constant 16 18 (1 / 4) 1048576 (2 ^ 124) 278
  < ExactCells.e_FRI_constant 17 18 (1 / 4) 1048576 (2 ^ 124) 278 /\
  Exact.e_FRI_queries (Exact.theta (Exact.alpha 17 (1 / 4))) 50
  < Exact.e_FRI_queries (Exact.theta (Exact.alpha 16 (1 / 4))) 50.
Proof.
  apply (proj2 johnson_parameter_tradeoff 16%Z 17%Z 18%Z 50%Z (1 / 4) 1048576
           (2 ^ 124) 278);
    try lia; lra.
Defined.

(** ** Errors on inputs outside the domain *)

Lemma constants_cell_negative_k (i : inputs) :
  (k i < 0)%Z -> constants_cell i = Raise (ValueError "negative shift count").
Proof.
  intros Hk. unfold constants_cell, py_truediv, arith, py_lshift, ret.
  cbn [bind]. apply Z.ltb_lt in Hk. rewrite Hk. reflexivity.
Qed.

Lemma constants_cell_negative_h (i : inputs) (v : value) :
  (1 /! (1 <<! k i))%Z = Ok v -> (h i < 0)%Z ->
  constants_cell i = Raise (ValueError "negative shift count").
Proof.
  intros Hv Hh. unfold constants_cell. step Hv.
  unfold py_lshift, ret. cbn [bind]. apply Z.ltb_lt in Hh. rewrite Hh.
  reflexivity.
Qed.

(** X7. A negative [k], or a negative [h] once the rate has been computed,
    stops every notebook in its constants cell with
    [ValueError('negative shift count')], raised by [1 << k] or [1 << h]. *)
Theorem negative_exponent_raises
    (i : inputs) (m : Z) (q : Conjectured.conjecture) :
  (k i < 0)%Z \/ ((exists v, (1 /! (1 <<! k i))%Z = Ok v) /\ (h i < 0)%Z) ->
  Provable.run i m = Raise (ValueError "negative shift count") /\
  Conjectured.run i m q = Raise (ValueError "negative shift count") /\
  UDR.run i m = Raise (ValueError "negative shift count").
Proof.
  intros Hneg.
  assert (Hc : constants_cell i = Raise (ValueError "negative shift count")).
  { destruct Hneg as [Hk | [[v Hv] Hh]].
    - apply constants_cell_negative_k; exact Hk.
    - apply (constants_cell_negative_h i v); assumption. }
  assert (Hp : Provable.run i m = Raise (ValueError "negative shift count"))
    by (unfold Provable.run; step Hc; reflexivity).
  split; [exact Hp |].
  split.
  - unfold Conjectured.run. step Hp. reflexivity.
  - unfold UDR.run. step Hc. reflexivity.
Qed.

(** At [h = -1], the other values as in the file. *)
Lemma negative_exponent_raises_witness :
  Provable.run (Inputs 2 (-1) 4 baby_bear 274 50) 16
    = Raise (ValueError "negative shift count") /\
  Conjectured.run (Inputs 2 (-1) 4 baby_bear 274 50) 16 file_conjecture
    = Raise (ValueError "negative shift count") /\
  UDR.run (Inputs 2 (-1) 4 baby_bear 274 50) 16
    = Raise (ValueError "negative shift count").
Proof.
  apply (negative_exponent_raises (Inputs 2 (-1) 4 baby_bear 274 50) 16
           file_conjecture).
  right. split; [eexists; vm_compute; reflexivity | simpl; lia].
Defined.

(** X8. With Johnson parameter [m = 0], the provable notebook (and the
    conjectured cells, which run after it) stops with
    [ZeroDivisionError('division by zero')], raised by [1 / (2 * m)], for
    every input whose constants cell succeeds. *)
Theorem zero_johnson_parameter_raises
    (i : inputs) (c : constants) (q : Conjectured.conjecture) :
  constants_cell i = Ok c ->
  Provable.run i 0 = Raise (ZeroDivisionError "division by zero") /\
  Conjectured.run i 0 q = Raise (ZeroDivisionError "division by zero").
Proof.
  intros Hc.
  assert (Hp : Provable.run i 0 = Raise (ZeroDivisionError "division by zero")).
  { unfold Provable.run. step Hc. reflexivity. }
  split; [exact Hp |].
  unfold Conjectured.run. step Hp. reflexivity.
Qed.

(** At the file's values. *)
Lemma zero_johnson_parameter_raises_witness :
  Provable.run file_inputs 0 = Raise (ZeroDivisionError "division by zero") /\
  Conjectured.run file_inputs 0 file_conjecture
    = Raise (ZeroDivisionError "division by zero").
Proof.
  eapply (zero_johnson_parameter_raises file_inputs).
  vm_compute; reflexivity.
Defined.

(** ** The unique-decoding notebook does not use [m] *)

(** X9. The unique-decoding notebook binds [m] but never reads it: for every
    input, the runs with two values of [m] raise the same exception, or both
    complete with the same constants, [alpha], [theta], FRI terms, [rho_plus],
    [m_plus] and remaining terms. *)
Theorem UDR_ignores_m (i : inputs) (m m' : Z) :
  UDR.run i m' =
  match UDR.run i m with
  | Ok r =>
    Ok (Report (r_constants r)
          (Johnson m' (alpha (r_johnson r)) (theta (r_johnson r)))
          (r_fri r) (r_plus r) (r_iop r))
  | Raise x => Raise x
  | Unmodelled => Unmodelled
  end.
Proof.
  unfold UDR.run.
  destruct (constants_cell i) as [c | x | ]; cbn [bind]; try reflexivity.
  unfold UDR.johnson_cell.
  destruct (1 -! (1 -! rho c) /! 2)%Z as [a | x | ]; cbn [bind]; try reflexivity.
  destruct (1 -! a)%Z as [t | x | ]; cbn [bind]; try reflexivity.
  change (UDR.fri_cell i c (Johnson m' a t))
    with (UDR.fri_cell i c (Johnson m a t)).
  destruct (UDR.fri_cell i c (Johnson m a t)) as [f | x | ]; cbn [bind];
    try reflexivity.
  change (m_plus_cell c (Johnson m' a t)) with (m_plus_cell c (Johnson m a t)).
  destruct (m_plus_cell c (Johnson m a t)) as [jp | x | ]; cbn [bind];
    try reflexivity.
  unfold UDR.L_plus_cell, ret. cbn [bind].
  destruct (iop_cell i c f 1%Z) as [o | x | ]; reflexivity.
Qed.

(** ** What the number of queries changes *)

Ltac same_Ok H1 H2 E :=
  rewrite H1 in H2; injection H2 as E; symmetry in E.

Lemma iop_cell_frame (i i' : inputs) (c : constants) (f f' : fri) (Lp : value)
    (o o' : iop) :
  C i' = C i -> e i' = e i ->
  iop_cell i c f Lp = Ok o -> iop_cell i' c f' Lp = Ok o' ->
  L_plus o' = L_plus o /\ e_ALI o' = e_ALI o /\ e_DEEP o' = e_DEEP o /\
  e_PLONK o' = e_PLONK o /\ e_PLOOKUP o' = e_PLOOKUP o.
Proof.
  intros HC He Ho Ho'.
  apply iop_cell_Ok in Ho, Ho'.
  destruct Ho as (HL & Ha & Hd & Hpk & Hpl & _).
  destruct Ho' as (HL' & Ha' & Hd' & Hpk' & Hpl' & _).
  rewrite HC in Ha'. rewrite He in Hpk', Hpl'.
  same_Ok Ha Ha' Ea. same_Ok Hd Hd' Ed.
  same_Ok Hpk Hpk' Epk. same_Ok Hpl Hpl' Epl.
  repeat split; congruence.
Qed.

Lemma folding_error_with_queries (i : inputs) (s' : Z) (c : constants) (x : Z) :
  folding_error (with_queries i s') c x = folding_error i c x.
Proof. reflexivity. Qed.

Lemma Provable_queries_frame (i : inputs) (m s' : Z) (r r' : report) :
  Provable.run i m = Ok r ->
  Provable.run (with_queries i s') m = Ok r' ->
  same_but_queries r r'.
Proof.
  intros Hr Hr'. apply Provable_run_Ok in Hr, Hr'.
  destruct Hr as (Hc & Hj & Hf & Hjp & HL & Ho).
  destruct Hr' as (Hc' & Hj' & Hf' & Hjp' & HL' & Ho').
  change (constants_cell (with_queries i s')) with (constants_cell i) in Hc'.
  same_Ok Hc Hc' Ec. rewrite Ec in Hj', Hf', Hjp', Ho'.
  same_Ok Hj Hj' Ej. rewrite Ej in Hf', Hjp'.
  same_Ok Hjp Hjp' Ejp. rewrite Ejp in HL'.
  same_Ok HL HL' EL. rewrite EL in Ho'.
  destruct (iop_cell_frame i (with_queries i s') _ _ _ _ _ _
              eq_refl eq_refl Ho Ho') as (_ & Ha & Hd & Hpk & Hpl).
  unfold Provable.fri_cell in Hf, Hf'.
  apply bind_Ok in Hf. destruct Hf as (g & Hg & Hf).
  apply bind_Ok in Hf. destruct Hf as (fc & Hfc & Hf).
  apply bind_Ok in Hf'. destruct Hf' as (g' & Hg' & Hf').
  apply bind_Ok in Hf'. destruct Hf' as (fc' & Hfc' & Hf').
  same_Ok Hg Hg' Eg. subst g'.
  rewrite folding_error_with_queries in Hfc'.
  same_Ok Hfc Hfc' Efc. subst fc'.
  inv_bind Hf. inv_bind Hf'.
  unfold same_but_queries.
  injection Hf as <-. injection Hf' as <-.
  cbn [e_proximity_gap e_FRI_constant].
  repeat split; assumption || reflexivity.
Qed.

Lemma UDR_queries_frame (i : inputs) (m s' : Z) (r r' : report) :
  UDR.run i m = Ok r ->
  UDR.run (with_queries i s') m = Ok r' ->
  same_but_queries r r'.
Proof.
  intros Hr Hr'. apply UDR_run_Ok in Hr, Hr'.
  destruct Hr as (Hc & Hj & Hf & Hjp & HL & Ho).
  destruct Hr' as (Hc' & Hj' & Hf' & Hjp' & HL' & Ho').
  change (constants_cell (with_queries i s')) with (constants_cell i) in Hc'.
  same_Ok Hc Hc' Ec. rewrite Ec in Hj', Hf', Hjp', Ho'.
  same_Ok Hj Hj' Ej. rewrite Ej in Hf', Hjp'.
  same_Ok Hjp Hjp' Ejp.
  destruct (iop_cell_frame i (with_queries i s') _ _ _ _ _ _
              eq_refl eq_refl Ho Ho') as (_ & Ha & Hd & Hpk & Hpl).
  unfold UDR.fri_cell in Hf, Hf'.
  apply bind_Ok in Hf. destruct Hf as (g & Hg & Hf).
  apply bind_Ok in Hf. destruct Hf as (fc & Hfc & Hf).
  apply bind_Ok in Hf'. destruct Hf' as (g' & Hg' & Hf').
  apply bind_Ok in Hf'. destruct Hf' as (fc' & Hfc' & Hf').
  same_Ok Hg Hg' Eg. subst g'.
  same_Ok Hfc Hfc' Efc. subst fc'.
  inv_bind Hf. inv_bind Hf'.
  unfold same_but_queries.
  injection Hf as <-. injection Hf' as <-.
  cbn [e_proximity_gap e_FRI_constant].
  repeat split; try assumption; try reflexivity.
  rewrite HL, HL'. reflexivity.
Qed.

Lemma Conjectured_queries_frame (i : inputs) (m s' : Z)
    (q : Conjectured.conjecture) (r r' : report) :
  Conjectured.run i m q = Ok r ->
  Conjectured.run (with_queries i s') m q = Ok r' ->
  same_but_queries r r'.
Proof.
  intros Hr Hr'. apply Conjectured_run_inv in Hr, Hr'.
  destruct Hr as (rp & ep & Hp & Ec & Ejp & Ej & Ht & Hf & HL & Ho).
  destruct Hr' as (rp' & ep' & Hp' & Ec' & Ejp' & Ej' & Ht' & Hf' & HL' & Ho').
  destruct (Provable_queries_frame i m s' rp rp' Hp Hp')
    as (Pc & Pj & Pjp & _).
  rewrite Pc, Pjp in Ht'. rewrite Pc in Hf', HL', Ho'.
  rewrite Ht in Ht'. injection Ht' as Eth Eep.
  rewrite <- Eth in Hf'. rewrite <- Eep in HL'.
  same_Ok HL HL' EL. rewrite EL in Ho'.
  destruct (iop_cell_frame i (with_queries i s') _ _ _ _ _ _
              eq_refl eq_refl Ho Ho') as (_ & Ha & Hd & Hpk & Hpl).
  unfold Conjectured.fri_cell in Hf, Hf'.
  apply bind_Ok in Hf. destruct Hf as (g & Hg & Hf).
  apply bind_Ok in Hf. destruct Hf as (fc & Hfc & Hf).
  apply bind_Ok in Hf'. destruct Hf' as (g' & Hg' & Hf').
  apply bind_Ok in Hf'. destruct Hf' as (fc' & Hfc' & Hf').
  same_Ok Hg Hg' Eg. subst g'.
  rewrite folding_error_with_queries in Hfc'.
  same_Ok Hfc Hfc' Efc. subst fc'.
  inv_bind Hf. inv_bind Hf'.
  unfold same_but_queries.
  rewrite Ec, Ec', Ejp, Ejp', Ej, Ej', Pc, Pj, Pjp, <- Eth.
  injection Hf as <-. injection Hf' as <-.
  cbn [e_proximity_gap e_FRI_constant].
  repeat split; assumption || reflexivity.
Qed.

(** X10. In each of the three regimes, two completed runs that differ only in
    the number of queries [s] report the same constants, Johnson parameters,
    [rho_plus], [m_plus], [e_proximity_gap], [e_FRI_constant], [L_plus],
    [e_ALI], [e_DEEP], [e_PLONK] and [e_PLOOKUP]: [s] reaches only
    [e_FRI_queries], [e_FRI] and [e_IOP]. *)
Theorem queries_change_three_names
    (i : inputs) (m s' : Z) (q : Conjectured.conjecture) (r r' : report) :
  (Provable.run i m = Ok r /\ Provable.run (with_queries i s') m = Ok r') \/
  (Conjectured.run i m q = Ok r /\
   Conjectured.run (with_queries i s') m q = Ok r') \/
  (UDR.run i m = Ok r /\ UDR.run (with_queries i s') m = Ok r') ->
  same_but_queries r r'.
Proof.
  intros [[Hr Hr'] | [[Hr Hr'] | [Hr Hr']]].
  - exact (Provable_queries_frame i m s' r r' Hr Hr').
  - exact (Conjectured_queries_frame i m s' q r r' Hr Hr').
  - exact (UDR_queries_frame i m s' r r' Hr Hr').
Qed.

(** The conjectured cells at the file's values, with [s = 50] and [s = 51]. *)
Lemma queries_change_three_names_witness :
  exists r r' : report,
    Conjectured.run file_inputs file_m file_conjecture = Ok r /\
    Conjectured.run (with_queries file_inputs 51) file_m file_conjecture
      = Ok r' /\
    same_but_queries r r'.
Proof.
  do 2 eexists.
  split; [vm_compute; reflexivity |].
  split; [vm_compute; reflexivity |].
  apply (queries_change_three_names file_inputs file_m 51 file_conjecture).
  right. left. split; vm_compute; reflexivity.
Defined.

(** ** The constraint of the conjectured regime *)

(** X11. In the conjectured cells, whenever the provable cells have
    completed and [theta < 1 - rho_plus] (with [theta = 1 - rho - epsilon])
    evaluates to false, the run raises [AssertionError] and produces no
    report. *)
Theorem conjectured_violation_raises
    (i : inputs) (m : Z) (q : Conjectured.conjecture) (r : report)
    (t : value) :
  Provable.run i m = Ok r ->
  (1 -! rho (r_constants r) -! Conjectured.epsilon q)%Z = Ok t ->
  (t <! 1 -! rho_plus (r_plus r))%Z = Ok false ->
  Conjectured.run i m q = Raise AssertionError /\
  forall r' : report, Conjectured.run i m q <> Ok r'.
Proof.
  intros Hr Ht Hchk.
  assert (Hrun : Conjectured.run i m q = Raise AssertionError).
  { unfold Conjectured.run. step Hr.
    unfold Conjectured.theta_cell. step Ht.
    unfold py_assert. step Hchk. reflexivity. }
  split; [exact Hrun |].
  intros r' Hr'. rewrite Hrun in Hr'. discriminate.
Qed.

(** At the file's values with [epsilon = 2^-19 = rho_plus - rho]. *)
Lemma conjectured_violation_raises_witness :
  Conjectured.run file_inputs file_m
    (Conjectured.Conjecture 1 1 1 (VFloat 0x1p-19)) = Raise AssertionError /\
  forall r' : report,
    Conjectured.run file_inputs file_m
      (Conjectured.Conjecture 1 1 1 (VFloat 0x1p-19)) <> Ok r'.
Proof.
  refine (conjectured_violation_raises file_inputs file_m
            (Conjectured.Conjecture 1 1 1 (VFloat 0x1p-19)) _ _ _ _ _).
  - vm_compute; reflexivity.
  - vm_compute; reflexivity.
  - vm_compute; reflexivity.
Defined.

(** ** The final logarithm guards the report *)

Lemma float_truediv_is_float (x y : float) (v : value) :
  float_truediv x y = Ok v -> exists f, v = VFloat f.
Proof.
  unfold float_truediv.
  destruct (PrimFloat.eqb y PrimFloat.zero); [discriminate |].
  intros Hd. injection Hd as <-. eexists; reflexivity.
Qed.

Lemma py_truediv_is_float (a b : result value) (v : value) :
  (a /! b)%Z = Ok v -> exists f, v = VFloat f.
Proof.
  unfold py_truediv, arith. intros Hd. inv_bind Hd.
  destruct v0 as [x | x], v1 as [y | y];
    try (inv_bind Hd; exact (float_truediv_is_float _ _ _ Hd)).
  unfold int_truediv in Hd.
  destruct (y =? 0)%Z; [discriminate |].
  destruct (SF_is_infinity (SF64ratio x y)); [discriminate |].
  injection Hd as <-. eexists; reflexivity.
Qed.

Lemma py_add_float_r (a : result value) (g : float) (v : value) :
  (a +! VFloat g)%Z = Ok v -> exists f, v = VFloat f.
Proof.
  unfold py_add, arith, ret.
  destruct a as [[z | u] | x | ]; cbn [bind to_float]; try discriminate.
  - destruct (float_of_int z) as [u | x | ]; cbn [bind]; try discriminate.
    intros Hd. injection Hd as <-. eexists; reflexivity.
  - intros Hd. injection Hd as <-. eexists; reflexivity.
Qed.

Lemma math_log_defined_float (x : float) (u : unit) :
  math_log_defined (VFloat x) = Ok u -> PrimFloat.leb x 0 = false.
Proof.
  unfold math_log_defined, ret. cbn [bind py_compare].
  rewrite leb_spec.
  change (Prim2SF 0) with (S754_zero false).
  destruct (Prim2SF x) as [sx | sx | | sx mx ex]; cbn [SFcompare_int option_map].
  - rewrite Z.compare_refl. discriminate.
  - destruct sx; [discriminate | reflexivity].
  - reflexivity.
  - destruct sx.
    + assert (Hgt : (if (0 <=? ex)%Z then (0 ?= Z.neg mx * 2 ^ ex)%Z
                     else (0 * 2 ^ (- ex) ?= Z.neg mx)%Z) = Gt).
      { destruct (0 <=? ex)%Z eqn:He.
        - apply Z.leb_le in He. apply Z.compare_gt_iff.
          assert (0 < 2 ^ ex)%Z by (apply Z.pow_pos_nonneg; lia). nia.
        - reflexivity. }
      rewrite Hgt. discriminate.
    + reflexivity.
Qed.

Lemma iop_cell_positive (i : inputs) (c : constants) (f : fri) (Lp : value)
    (o : iop) :
  iop_cell i c f Lp = Ok o ->
  exists x : float, e_IOP o = VFloat x /\ PrimFloat.leb x 0 = false.
Proof.
  unfold iop_cell. intros Ho.
  apply bind_Ok in Ho. destruct Ho as (a & Ha & Ho).
  apply bind_Ok in Ho. destruct Ho as (d & Hd & Ho).
  apply bind_Ok in Ho. destruct Ho as (pk & Hpk & Ho).
  apply bind_Ok in Ho. destruct Ho as (pl & Hpl & Ho).
  apply bind_Ok in Ho. destruct Ho as (t & Ht & Ho).
  apply bind_Ok in Ho. destruct Ho as (u & Hu & Ho).
  injection Ho as <-. cbn [e_IOP].
  destruct (py_truediv_is_float _ _ _ Hpl) as [g ->].
  destruct (py_add_float_r _ _ _ Ht) as [x ->].
  exists x. split; [reflexivity |].
  exact (math_log_defined_float _ _ Hu).
Qed.

Lemma constants_kinds (i : inputs) (c : constants) :
  constants_cell i = Ok c ->
  H c = VInt (2 ^ h i) /\ L c = VInt (C i + 4) /\
  (exists f, rho c = VFloat f) /\ (exists f, D c = VFloat f).
Proof.
  intros Hc. apply constants_cell_Ok in Hc.
  destruct Hc as (Hrho & HH & HD & _ & HL).
  split.
  { unfold py_lshift, ret in HH. cbn [bind] in HH.
    destruct (h i <? 0)%Z; [discriminate |].
    injection HH as <-. rewrite Z.shiftl_1_l. reflexivity. }
  split.
  { unfold py_add, arith, ret in HL. cbn [bind] in HL.
    injection HL as <-. reflexivity. }
  split.
  - exact (py_truediv_is_float _ _ _ Hrho).
  - exact (py_truediv_is_float _ _ _ HD).
Qed.

Lemma iop_kinds (i : inputs) (c : constants) (f : fri) (Lp : value) (o : iop) :
  iop_cell i c f Lp = Ok o ->
  (exists x, e_ALI o = VFloat x) /\ (exists x, e_DEEP o = VFloat x) /\
  (exists x, e_PLONK o = VFloat x) /\ (exists x, e_PLOOKUP o = VFloat x).
Proof.
  intros Ho. apply iop_cell_Ok in Ho.
  destruct Ho as (_ & Ha & Hd & Hpk & Hpl & _).
  repeat split; eapply py_truediv_is_float; eassumption.
Qed.

Lemma m_plus_is_int (c : constants) (j : johnson) (jp : johnson_plus) :
  m_plus_cell c j = Ok jp -> exists z : Z, m_plus jp = VInt z.
Proof.
  intros Hjp. apply m_plus_cell_Ok in Hjp.
  destruct Hjp as (_ & _ & Hm & _).
  exact (math_ceil_is_int _ _ Hm).
Qed.

(** What each regime's completed run has in common. *)
Lemma completed_run_cells (i : inputs) (m0 : Z) (q : Conjectured.conjecture)
    (r : report) :
  Provable.run i m0 = Ok r \/ Conjectured.run i m0 q = Ok r
  \/ UDR.run i m0 = Ok r ->
  constants_cell i = Ok (r_constants r) /\
  (exists j, m_plus_cell (r_constants r) j = Ok (r_plus r)) /\
  (exists f Lp, iop_cell i (r_constants r) f Lp = Ok (r_iop r)).
Proof.
  intros [Hr | [Hr | Hr]].
  - apply Provable_run_Ok in Hr. destruct Hr as (Hc & _ & _ & Hjp & _ & Ho).
    eauto 6.
  - apply Conjectured_run_inv in Hr.
    destruct Hr as (rp & ep & Hp & Ec & Ejp & _ & _ & _ & _ & Ho).
    apply Provable_run_Ok in Hp. destruct Hp as (Hc & _ & _ & Hjp & _ & _).
    rewrite Ec, Ejp. eauto 6.
  - apply UDR_run_Ok in Hr. destruct Hr as (Hc & _ & _ & Hjp & _ & Ho).
    eauto 6.
Qed.

(** X12. A report is produced only when the total is a float that is not
    [<= 0]: in every regime a completed run has [e_IOP] a float [x] with
    [x <= 0.0] false (a non-positive total stops the last cell in
    [math.log]). *)
Theorem completed_run_has_positive_total
    (i : inputs) (m0 : Z) (q : Conjectured.conjecture) (r : report) :
  Provable.run i m0 = Ok r \/ Conjectured.run i m0 q = Ok r
  \/ UDR.run i m0 = Ok r ->
  exists x : float,
    e_IOP (r_iop r) = VFloat x /\ PrimFloat.leb x 0 = false.
Proof.
  intros Hr. apply completed_run_cells in Hr.
  destruct Hr as (_ & _ & (f & Lp & Ho)).
  exact (iop_cell_positive _ _ _ _ _ Ho).
Qed.

(** The provable notebook at the file's values. *)
Lemma completed_run_has_positive_total_witness :
  exists r : report,
    Provable.run file_inputs file_m = Ok r /\
    exists x : float,
      e_IOP (r_iop r) = VFloat x /\ PrimFloat.leb x 0 = false.
Proof.
  eexists. split; [vm_compute; reflexivity |].
  apply (completed_run_has_positive_total file_inputs file_m file_conjecture).
  left. vm_compute; reflexivity.
Defined.

(** ** Which values are exact *)

(** X13. In every regime a completed run has [H = 2^h] and [L = C + 4] as
    exact Python ints and [m_plus] an int, while [rho], [D], [e_ALI],
    [e_DEEP], [e_PLONK] and [e_PLOOKUP] are floats. *)
Theorem completed_run_kinds
    (i : inputs) (m0 : Z) (q : Conjectured.conjecture) (r : report) :
  Provable.run i m0 = Ok r \/ Conjectured.run i m0 q = Ok r
  \/ UDR.run i m0 = Ok r ->
  H (r_constants r) = VInt (2 ^ h i) /\
  L (r_constants r) = VInt (C i + 4) /\
  (exists f, rho (r_constants r) = VFloat f) /\
  (exists f, D (r_constants r) = VFloat f) /\
  (exists z, m_plus (r_plus r) = VInt z) /\
  (exists x, e_ALI (r_iop r) = VFloat x) /\
  (exists x, e_DEEP (r_iop r) = VFloat x) /\
  (exists x, e_PLONK (r_iop r) = VFloat x) /\
  (exists x, e_PLOOKUP (r_iop r) = VFloat x).
Proof.
  intros Hr. apply completed_run_cells in Hr.
  destruct Hr as (Hc & [j Hjp] & (f & Lp & Ho)).
  destruct (constants_kinds _ _ Hc) as (HH & HL & Hrho & HD).
  destruct (iop_kinds _ _ _ _ _ Ho) as (Ha & Hd & Hpk & Hpl).
  pose proof (m_plus_is_int _ _ _ Hjp) as Hm.
  auto 12.
Qed.

(** The unique-decoding notebook at its file's values. *)
Lemma completed_run_kinds_witness :
  exists r : report,
    UDR.run file_inputs_UDR file_m = Ok r /\
    H (r_constants r) = VInt (2 ^ 20) /\
    L (r_constants r) = VInt (16 + 222 + 36 + 4) /\
    (exists f, rho (r_constants r) = VFloat f) /\
    (exists f, D (r_constants r) = VFloat f) /\
    (exists z, m_plus (r_plus r) = VInt z) /\
    (exists x, e_ALI (r_iop r) = VFloat x) /\
    (exists x, e_DEEP (r_iop r) = VFloat x) /\
    (exists x, e_PLONK (r_iop r) = VFloat x) /\
    (exists x, e_PLOOKUP (r_iop r) = VFloat x).
Proof.
  eexists. split; [vm_compute; reflexivity |].
  apply (completed_run_kinds file_inputs_UDR file_m file_conjecture).
  right. right. vm_compute; reflexivity.
Defined.

(** X14. The column count is never checked: the constants cell succeeds for
    any integer [C] whenever it succeeds for one, binding [L = C + 4]; with
    [C = -1000] (the other values as in the file) the provable notebook
    completes and reports a negative [e_FRI_constant] and a negative
    [e_ALI]. *)
Theorem column_count_is_not_validated :
  (forall (i : inputs) (c : constants) (C' : Z),
     constants_cell i = Ok c ->
     constants_cell (Inputs (k i) (h i) (e i) (p i) C' (s i))
     = Ok (Constants (rho c) (H c) (D c) (F c) (VInt (C' + 4)))) /\
  (exists (r : report) (x y : float),
     Provable.run (Inputs 2 18 4 baby_bear (-1000) 50) 16 = Ok r /\
     e_FRI_constant (r_fri r) = VFloat x /\ PrimFloat.ltb x 0 = true /\
     e_ALI (r_iop r) = VFloat y /\ PrimFloat.ltb y 0 = true).
Proof.
  split.
  - intros i c C' Hc. apply constants_cell_Ok in Hc.
    destruct Hc as (Hrho & HH & HD & HF & _).
    unfold constants_cell. cbn [k h e p C s].
    step Hrho. step HH. step HD. step HF. reflexivity.
  - do 3 eexists.
    split; [vm_compute; reflexivity |].
    split; [reflexivity |].
    split; [vm_compute; reflexivity |].
    split; [reflexivity | vm_compute; reflexivity].
Qed.

(** ** The folding term *)

(** X15. For every [h] from [0] to [1023], the factor
    [math.floor((h + 2) / 4 - 2)] of the folding error, which the notebook
    computes in binary64, is the integer [(h - 6) // 4]: it is [0] for [h]
    from [6] to [9] and negative below [6]. *)
Theorem folding_floor_factor (i : inputs) (c : constants) (m : Z) :
  (0 <= h i <= 1023)%Z ->
  folding_error i c m
  = ((2 *! m +! 1) *! (D c +! 1) *! 16 *! VInt ((h i - 6) / 4)
     /! (math_sqrt (rho c) *! F c))%Z.
Proof.
  intros Hh.
  assert (Hall : Z_range_all floor_factor_ok 0 1024 = true)
    by (vm_compute; reflexivity).
  pose proof (Z_range_all_sound _ _ _ Hall (h i)) as Hok.
  unfold floor_factor_ok in Hok.
  unfold folding_error.
  destruct (math_floor ((h i +! 2) /! 4 -! 2)%Z) as [[z | f] | x | ];
    try (discriminate Hok; lia).
  assert (Hz : (z =? (h i - 6) / 4)%Z = true) by (apply Hok; lia).
  apply Z.eqb_eq in Hz. rewrite Hz. reflexivity.
Qed.

(** At [h = 18]: the factor is [3]. *)
Lemma folding_floor_factor_witness :
  folding_error file_inputs
    (Constants (VFloat 0.25) 262144%Z (VFloat 1048576) (VFloat 0x1p124) 278%Z)
    16
  = ((2 *! 16 +! 1) *! (VFloat 1048576 +! 1) *! 16 *! VInt ((18 - 6) / 4)
     /! (math_sqrt (VFloat 0.25) *! VFloat 0x1p124))%Z.
Proof.
  apply (folding_floor_factor file_inputs
           (Constants (VFloat 0.25) 262144%Z (VFloat 1048576) (VFloat 0x1p124)
              278%Z) 16).
  simpl. lia.
Defined.

(** ** The choice of [m] and of the conjecture's constants *)

Lemma optimal_among_sound (run : Z -> result report) (m0 lo : Z) (n : nat) :
  optimal_among run m0 lo n = true ->
  forall m : Z, (lo <= m < lo + Z.of_nat n)%Z -> m <> m0 ->
    exists r r' : report, run m0 = Ok r /\ run m = Ok r' /\ bits r' < bits r.
Proof.
  unfold optimal_among. intros Hall m Hm Hne.
  pose proof (Z_range_all_sound _ _ _ Hall m Hm) as Hor. cbv beta in Hor.
  apply orb_true_iff in Hor. destruct Hor as [Heq | Hb].
  { apply Z.eqb_eq in Heq. contradiction. }
  unfold beats in Hb.
  destruct (run m0) as [r | | ]; try discriminate.
  destruct (run m) as [r' | | ]; try discriminate.
  exists r, r'. split; [reflexivity | split; [reflexivity |]].
  apply value_pos_ltb_sound in Hb.
  apply (bits_lt _ _ Hb).
Qed.

(** X16. With the file's other values, the provable notebook completes for
    every Johnson parameter [m] from [1] to [40], and [m = 16], the value
    written in the file, gives strictly more bits than any other of them. *)
Theorem file_m_is_optimal (m : Z) :
  (1 <= m <= 40)%Z -> m <> 16%Z ->
  exists r r' : report,
    Provable.run file_inputs 16 = Ok r /\
    Provable.run file_inputs m = Ok r' /\
    bits r' < bits r.
Proof.
  intros Hm Hne.
  apply (optimal_among_sound (Provable.run file_inputs) 16 1 40);
    [vm_compute; reflexivity | lia | exact Hne].
Qed.

(** Against [m = 17]. *)
Lemma file_m_is_optimal_witness :
  exists r r' : report,
    Provable.run file_inputs 16 = Ok r /\
    Provable.run file_inputs 17 = Ok r' /\
    bits r' < bits r.
Proof.
  apply (file_m_is_optimal 17); lia.
Defined.

(** X17. With [C_rho = 2] in place of [1] (the other values as in the file)
    the conjectured cells report [58.85] bits, and with [C_rho = 2] and
    [epsilon = 0.1] they report [60.85] bits, both to within [0.01]. *)
Theorem conjecture_sensitivity :
  (exists r : report,
     Conjectured.run file_inputs file_m
       (Conjectured.Conjecture 1 1 2 (VFloat 0x1.999999999999ap-5)) = Ok r /\
     approx (bits r) 58.85 0.01) /\
  (exists r : report,
     Conjectured.run file_inputs file_m
       (Conjectured.Conjecture 1 1 2 (VFloat 0x1.999999999999ap-4)) = Ok r /\
     approx (bits r) 60.85 0.01).
Proof.
  split.
  - eexists. split; [vm_compute; reflexivity |].
    apply approx_opp; log2_by (-11772)%Z (-11768)%Z 200%Z.
  - eexists. split; [vm_compute; reflexivity |].
    apply approx_opp; log2_by (-12172)%Z (-12168)%Z 200%Z.
Qed.
